(** * RBrowser: the web-based ROOT browser prototype

    A shallow embedding of [gui/browserv7/src/RBrowser.cxx] and the
    properties of its command dispatcher, canvas registry and
    file-saving helper.

    The browser object, the web window it talks through and the parts of
    the host it touches (working directory, local files, interpreter) are
    an explicit state; every member function is a computation over that
    state which either returns or raises.  What the ROOT framework
    provides and this file only calls (the browsable tree, TBufferJSON,
    object cloning, window addresses) is an interface, [Framework].

    The diagnostic [printf] calls of the source write to the process'
    standard output only and are not part of the state. *)

From Stdlib Require Import String Ascii ZArith Lia.
From stdpp Require Import base option list strings gmap pretty.

Local Open Scope string_scope.
Local Open Scope list_scope.
Local Open Scope Z_scope.

(** ** std::string *)

Module StdString.

(** [size()] *)
Definition size (s : string) : nat := String.length s.

(** The characters from position [pos] on, clamped at the end. *)
Fixpoint drop (pos : nat) (s : string) : string :=
  match pos, s with
  | O, _ => s
  | S _, EmptyString => EmptyString
  | S p, String _ r => drop p r
  end.

(** The first [len] characters, clamped at the end. *)
Fixpoint take (len : nat) (s : string) : string :=
  match len, s with
  | O, _ => EmptyString
  | S _, EmptyString => EmptyString
  | S n, String c r => String c (take n r)
  end.

(** [s.compare(0, len, lit) == 0]: the first [min len size] characters
    of [s] are compared with [lit]; position 0 is never out of range. *)
Definition compare0 (s : string) (len : nat) (lit : string) : bool :=
  String.eqb (take len s) lit.

(** [s.find(c)] for a single character: [None] is [npos]. *)
Fixpoint find (c : ascii) (s : string) : option nat :=
  match s with
  | EmptyString => None
  | String d r => if Ascii.eqb d c then Some O else S <$> find c r
  end.

(** [c] occurs in [s]. *)
Fixpoint contains (c : ascii) (s : string) : bool :=
  match s with
  | EmptyString => false
  | String d r => Ascii.eqb d c || contains c r
  end.

End StdString.

(** ** Computations that may raise *)

Inductive failure : Type :=
  | out_of_range          (* std::out_of_range, thrown by at() and substr() *)
  | index_out_of_bounds.  (* operator[] of a vector past its size: undefined *)

Inductive outcome (A : Type) : Type :=
  | Ret (a : A)
  | Raise (e : failure).
Arguments Ret {A} a.
Arguments Raise {A} e.

(** A computation over a state [S]: the state reached is kept when the
    computation raises, as the effects before a C++ exception are. *)
Definition comp (S A : Type) : Type := S -> outcome A * S.

Definition ret {S A} (a : A) : comp S A := fun s => (Ret a, s).
Definition raise {S A} (e : failure) : comp S A := fun s => (Raise e, s).
Definition bind {S A B} (m : comp S A) (k : A -> comp S B) : comp S B :=
  fun s => match m s with
           | (Ret a, s') => k a s'
           | (Raise e, s') => (Raise e, s')
           end.
Definition get {S} : comp S S := fun s => (Ret s, s).
Definition modify {S} (f : S -> S) : comp S unit := fun s => (Ret tt, f s).

Declare Scope comp_scope.
Delimit Scope comp_scope with comp.
Notation "x <- m ;; k" := (bind m (fun x => k))
  (at level 100, m at next level, right associativity) : comp_scope.
Notation "m ;;; k" := (bind m (fun _ => k))
  (at level 100, right associativity) : comp_scope.

(** [s.at(i)] *)
Definition at_ {S} (s : string) (i : nat) : comp S ascii :=
  match String.get i s with
  | Some c => ret c
  | None => raise out_of_range
  end.

(** [s.substr(pos)]: raises when [pos > size()]. *)
Definition substr {S} (s : string) (pos : nat) : comp S string :=
  if (pos <=? StdString.size s)%nat then ret (StdString.drop pos s)
  else raise out_of_range.

(** [v.at(i)] of a vector *)
Definition vector_at {S A} (v : list A) (i : nat) : comp S A :=
  match v !! i with
  | Some x => ret x
  | None => raise out_of_range
  end.

(** [v[i]] of a vector: reading past the size is undefined behaviour,
    which the embedding makes an explicit failure. *)
Definition vector_index {S A} (v : list A) (i : nat) : comp S A :=
  match v !! i with
  | Some x => ret x
  | None => raise index_out_of_bounds
  end.

(** ** std::istringstream and std::getline *)

Record istringstream : Type := {
  unread : string;   (* the characters not yet extracted *)
  eofbit : bool;
  failbit : bool;
}.

Definition istringstream_of (s : string) : istringstream :=
  {| unread := s; eofbit := false; failbit := false |}.

(** [std::getline(strm, buffer, delim)] and the truth value of the stream
    it returns.  A stream that is not good makes the sentry fail: failbit
    is set and [buffer] keeps its value.  Otherwise characters are
    extracted up to and including the first [delim] (which is not
    stored) or up to the end of the input (eofbit); extracting nothing at
    all sets failbit. *)
Definition getline (strm : istringstream) (buffer : string) (delim : ascii)
  : istringstream * string * bool :=
  if eofbit strm || failbit strm then
    ({| unread := unread strm; eofbit := eofbit strm; failbit := true |}, buffer, false)
  else
    match StdString.find delim (unread strm) with
    | Some i =>
        ({| unread := StdString.drop (S i) (unread strm); eofbit := false; failbit := false |},
         StdString.take i (unread strm), true)
    | None =>
        let nothing := (StdString.size (unread strm) =? 0)%nat in
        ({| unread := EmptyString; eofbit := true; failbit := nothing |},
         unread strm, negb nothing)
    end.

Definition colon : ascii := ":"%char.
Definition nul : ascii := "000"%char.

(** The vector [split] that ProcessSaveFile and ProcessRunCommand build
    from their argument: one getline up to ':' and one up to NUL, each
    pushed only when its getline succeeded. *)
Definition split_path (file_path : string) : list string :=
  let split := [] in
  let buffer := EmptyString in
  let path := istringstream_of file_path in
  let '(path, buffer, ok) := getline path buffer colon in
  let split := if ok then split ++ [buffer] else split in
  let '(path, buffer, ok) := getline path buffer nul in
  let split := if ok then split ++ [buffer] else split in
  split.

(** ** The host: process-wide state the browser reaches through gSystem,
    gInterpreter, std::ofstream and the web-window manager *)

Record Host : Type := {
  cwd : string;                 (* the process' current directory *)
  files : gmap string string;   (* local files, by resolved path *)
  windows : nat;                (* web windows created so far by the manager *)
}.

(** ** What the framework provides *)

Record RBrowserRequest : Type := {
  path : string;
  first : Z;
  number : Z;
}.

(** What RBrowser asks of the element a path resolves to. *)
Record RBrowsableElement (TObject : Type) : Type := {
  HasTextContent : bool;
  GetTextContent : string;
  GetObjectToDraw : option TObject;   (* [None] is the null pointer *)
}.
Arguments HasTextContent {TObject} _.
Arguments GetTextContent {TObject} _.
Arguments GetObjectToDraw {TObject} _.

Class Framework : Type := {
  (* TObject *)
  TObject : Type;
  Clone : TObject -> TObject;
  IsTH1 : TObject -> bool;                 (* dynamic_cast<TH1 *> succeeds *)
  SetDirectoryNull : TObject -> TObject;   (* h1->SetDirectory(nullptr) *)
  (* RBrowsable, the tree adapter *)
  RBrowsable : Type;
  RBrowserReplyNew : Type;
  RBrowsable_new : RBrowsable;             (* the default-constructed adapter *)
  SetTopItem : string -> RBrowsable -> RBrowsable;
  ProcessRequest : Host -> RBrowserRequest -> RBrowsable -> RBrowserReplyNew * RBrowsable;
  GetElement : Host -> string -> RBrowsable -> option (RBrowsableElement TObject) * RBrowsable;
  (* TBufferJSON; [None] is the null pointer FromJSON returns on failure *)
  FromJSON_RBrowserRequest : string -> option RBrowserRequest;
  FromJSON_strings : string -> option (list string);
  ToJSON_RBrowserReplyNew : RBrowserReplyNew -> string;
  ToJSON_strings : list string -> string;
  ToJSON_table : list (list string) -> string;
  (* addresses of the web windows of canvases, by window handle *)
  GetRelativeAddr : nat -> string;
  GetWindowAddr : nat -> string;
  (* the local file system *)
  ResolvePath : string -> string -> string;   (* current directory, file name *)
  CanOpenForWriting : Host -> string -> bool;
  DirectoryExists : Host -> string -> bool;
  (* gInterpreter->ExecuteMacro: its result and what it does to the host *)
  ExecuteMacro : string -> Host -> Z * Host;
}.

(** ** The browser object *)

Section RBrowser.
Context `{FW : Framework}.

Record TCanvas : Type := {
  fName : string;
  fTitle : string;
  fPrimitives : list (TObject * string);   (* objects with their draw options *)
  fCanvasImp : nat;                        (* handle of the TWebCanvas window *)
}.

Record RCanvas : Type := {
  rTitle : string;
  rPrimitives : list (TObject * string);
  rWindow : nat;
}.

(** The RWebWindow of the browser, as far as the browser drives it. *)
Record RWebWindow : Type := {
  fConn : list nat;               (* ids of the live connections, in order *)
  fSent : list (nat * string);    (* Send(connid, msg) calls, oldest first *)
  fShown : nat;                   (* Show(args) calls: display windows started *)
  fTerminated : bool;             (* TerminateROOT() was called *)
}.

Record RBrowser : Type := {
  fUseRCanvas : bool;
  fWorkingDirectory : string;
  fActiveCanvas : string;
  fConnId : nat;
  fBrowsable : RBrowsable;
  fCanvases : list TCanvas;
  fRCanvases : list RCanvas;
  fWebWindow : RWebWindow;
}.

Record World : Type := {
  this : RBrowser;
  host : Host;
}.

(** *** Field updates *)

Definition with_fConn (v : list nat) (win : RWebWindow) : RWebWindow :=
  {| fConn := v; fSent := fSent win; fShown := fShown win; fTerminated := fTerminated win |}.
Definition with_fSent (v : list (nat * string)) (win : RWebWindow) : RWebWindow :=
  {| fConn := fConn win; fSent := v; fShown := fShown win; fTerminated := fTerminated win |}.
Definition with_fShown (v : nat) (win : RWebWindow) : RWebWindow :=
  {| fConn := fConn win; fSent := fSent win; fShown := v; fTerminated := fTerminated win |}.
Definition with_fTerminated (v : bool) (win : RWebWindow) : RWebWindow :=
  {| fConn := fConn win; fSent := fSent win; fShown := fShown win; fTerminated := v |}.

Definition with_fUseRCanvas (v : bool) (b : RBrowser) : RBrowser :=
  {| fUseRCanvas := v; fWorkingDirectory := fWorkingDirectory b;
     fActiveCanvas := fActiveCanvas b; fConnId := fConnId b; fBrowsable := fBrowsable b;
     fCanvases := fCanvases b; fRCanvases := fRCanvases b; fWebWindow := fWebWindow b |}.
Definition with_fWorkingDirectory (v : string) (b : RBrowser) : RBrowser :=
  {| fUseRCanvas := fUseRCanvas b; fWorkingDirectory := v;
     fActiveCanvas := fActiveCanvas b; fConnId := fConnId b; fBrowsable := fBrowsable b;
     fCanvases := fCanvases b; fRCanvases := fRCanvases b; fWebWindow := fWebWindow b |}.
Definition with_fActiveCanvas (v : string) (b : RBrowser) : RBrowser :=
  {| fUseRCanvas := fUseRCanvas b; fWorkingDirectory := fWorkingDirectory b;
     fActiveCanvas := v; fConnId := fConnId b; fBrowsable := fBrowsable b;
     fCanvases := fCanvases b; fRCanvases := fRCanvases b; fWebWindow := fWebWindow b |}.
Definition with_fConnId (v : nat) (b : RBrowser) : RBrowser :=
  {| fUseRCanvas := fUseRCanvas b; fWorkingDirectory := fWorkingDirectory b;
     fActiveCanvas := fActiveCanvas b; fConnId := v; fBrowsable := fBrowsable b;
     fCanvases := fCanvases b; fRCanvases := fRCanvases b; fWebWindow := fWebWindow b |}.
Definition with_fBrowsable (v : RBrowsable) (b : RBrowser) : RBrowser :=
  {| fUseRCanvas := fUseRCanvas b; fWorkingDirectory := fWorkingDirectory b;
     fActiveCanvas := fActiveCanvas b; fConnId := fConnId b; fBrowsable := v;
     fCanvases := fCanvases b; fRCanvases := fRCanvases b; fWebWindow := fWebWindow b |}.
Definition with_fCanvases (v : list TCanvas) (b : RBrowser) : RBrowser :=
  {| fUseRCanvas := fUseRCanvas b; fWorkingDirectory := fWorkingDirectory b;
     fActiveCanvas := fActiveCanvas b; fConnId := fConnId b; fBrowsable := fBrowsable b;
     fCanvases := v; fRCanvases := fRCanvases b; fWebWindow := fWebWindow b |}.
Definition with_fRCanvases (v : list RCanvas) (b : RBrowser) : RBrowser :=
  {| fUseRCanvas := fUseRCanvas b; fWorkingDirectory := fWorkingDirectory b;
     fActiveCanvas := fActiveCanvas b; fConnId := fConnId b; fBrowsable := fBrowsable b;
     fCanvases := fCanvases b; fRCanvases := v; fWebWindow := fWebWindow b |}.
Definition with_fWebWindow (v : RWebWindow) (b : RBrowser) : RBrowser :=
  {| fUseRCanvas := fUseRCanvas b; fWorkingDirectory := fWorkingDirectory b;
     fActiveCanvas := fActiveCanvas b; fConnId := fConnId b; fBrowsable := fBrowsable b;
     fCanvases := fCanvases b; fRCanvases := fRCanvases b; fWebWindow := v |}.

Definition with_cwd (v : string) (h : Host) : Host :=
  {| cwd := v; files := files h; windows := windows h |}.
Definition with_files (v : gmap string string) (h : Host) : Host :=
  {| cwd := cwd h; files := v; windows := windows h |}.
Definition with_windows (v : nat) (h : Host) : Host :=
  {| cwd := cwd h; files := files h; windows := v |}.

Definition on_this (f : RBrowser -> RBrowser) (w : World) : World :=
  {| this := f (this w); host := host w |}.
Definition on_host (f : Host -> Host) (w : World) : World :=
  {| this := this w; host := f (host w) |}.
Definition on_window (f : RWebWindow -> RWebWindow) : World -> World :=
  on_this (fun b => with_fWebWindow (f (fWebWindow b)) b).

(** *** The pieces of the host and of the web window that are called *)

Local Open Scope comp_scope.

(** [s.c_str()] read back as a C string: the characters before the first
    NUL. *)
Definition c_str (s : string) : string :=
  match StdString.find nul s with
  | Some i => StdString.take i s
  | None => s
  end.

(** [fWebWindow->Send(connid, msg)] *)
Definition Send (connid : nat) (msg : string) : comp World unit :=
  modify (on_window (fun win => with_fSent (fSent win ++ [(connid, msg)]) win)).

(** [fWebWindow->NumConnections()] *)
Definition NumConnections (w : World) : nat := length (fConn (fWebWindow (this w))).

(** [fWebWindow->GetConnectionId(n)]: 0 when there is no such connection. *)
Definition GetConnectionId (w : World) (n : nat) : nat :=
  default 0%nat (fConn (fWebWindow (this w)) !! n).

(** A std::ofstream: the resolved path it writes to, if opening succeeded. *)
Definition ofstream : Type := option string.

(** [std::ofstream ostrm(name)]: opening truncates the file. *)
Definition ofstream_open (name : string) : comp World ofstream :=
  w <- get;;
  let target := ResolvePath (cwd (host w)) (c_str name) in
  if CanOpenForWriting (host w) target then
    modify (on_host (fun h => with_files (<[target := EmptyString]> (files h)) h));;;
    ret (Some target)
  else ret None.

(** [ostrm << text]: nothing is written through a stream that failed to open. *)
Definition ofstream_write (ostrm : ofstream) (text : string) : comp World unit :=
  match ostrm with
  | Some target =>
      modify (on_host (fun h =>
        with_files (<[target := default EmptyString (files h !! target) +:+ text]> (files h)) h))
  | None => ret tt
  end.

(** [(int) n] for a size_t [n], and size_t addition. *)
Definition to_int (n : Z) : Z := (n + 2 ^ 31) mod 2 ^ 32 - 2 ^ 31.
Definition size_t_add (a b : Z) : Z := (a + b) mod 2 ^ 64.
Definition vector_size {A} (v : list A) : Z := Z.of_nat (length v).

Global Arguments to_int : simpl never.
Global Arguments size_t_add : simpl never.

(** *** Member functions *)

(** RBrowser::ProcessBrowserRequest *)
Definition ProcessBrowserRequest (msg : string) : comp World string :=
  let request :=
    if (StdString.size msg =? 0)%nat
    then Some {| path := "/"; first := 0; number := 100 |}
    else FromJSON_RBrowserRequest msg in
  match request with
  | None => ret EmptyString
  | Some request =>
      w <- get;;
      let '(replynew, tree) := ProcessRequest (host w) request (fBrowsable (this w)) in
      modify (on_this (with_fBrowsable tree));;;
      ret ("BREPL:" +:+ c_str (ToJSON_RBrowserReplyNew replynew))
  end.

(** RBrowser::ProcessSaveFile *)
Definition ProcessSaveFile (file_path : string) : comp World bool :=
  let split := split_path file_path in
  name <- vector_index split 0;;
  ostrm <- ofstream_open name;;
  text <- vector_index split 1;;
  ofstream_write ostrm text;;;
  ret true.

(** RBrowser::ProcessRunCommand *)
Definition ProcessRunCommand (file_path : string) : comp World Z :=
  let split := split_path file_path in
  name <- vector_index split 0;;
  w <- get;;
  let '(res, h) := ExecuteMacro (c_str name) (host w) in
  modify (on_host (fun _ => h));;;
  ret res.

(** RBrowser::GetActiveCanvas: the position and the canvas found by
    [std::find_if], [None] for the null pointer. *)
Definition GetActiveCanvas (b : RBrowser) : option (nat * TCanvas) :=
  list_find (fun canv => fActiveCanvas b = fName canv) (fCanvases b).

(** RBrowser::GetActiveRCanvas *)
Definition GetActiveRCanvas (b : RBrowser) : option (nat * RCanvas) :=
  list_find (fun canv => fActiveCanvas b = rTitle canv) (fRCanvases b).

(** What the double click does to the active TCanvas: the list of
    primitives is cleared and the object added with its options. *)
Definition draw_on_canvas (tobj : TObject) (opt : string) (canv : TCanvas) : TCanvas :=
  {| fName := fName canv; fTitle := fTitle canv;
     fPrimitives := [(tobj, c_str opt)]; fCanvasImp := fCanvasImp canv |}.

(** What the double click does to the active RCanvas: wiped when it has
    primitives, then a detached clone of the object is drawn. *)
Definition draw_on_rcanvas (tobj : TObject) (opt : string) (rcanv : RCanvas) : RCanvas :=
  let prims := if (0 <? length (rPrimitives rcanv))%nat then [] else rPrimitives rcanv in
  let clone := Clone tobj in
  let clone := if IsTH1 clone then SetDirectoryNull clone else clone in
  {| rTitle := rTitle rcanv; rPrimitives := prims ++ [(clone, opt)]; rWindow := rWindow rcanv |}.

(** RBrowser::ProcessDblClick *)
Definition ProcessDblClick (item_path drawingOptions : string) : comp World string :=
  w <- get;;
  let '(elem, tree) := GetElement (host w) item_path (fBrowsable (this w)) in
  modify (on_this (with_fBrowsable tree));;;
  match elem with
  | None => ret EmptyString
  | Some elem =>
      if HasTextContent elem then ret ("FREAD:" +:+ GetTextContent elem)
      else
        match GetObjectToDraw elem with
        | None => ret EmptyString
        | Some tobj =>
            w <- get;;
            match GetActiveCanvas (this w) with
            | Some (i, canv) =>
                modify (on_this (fun b =>
                  with_fCanvases (<[i := draw_on_canvas tobj drawingOptions canv]> (fCanvases b)) b));;;
                ret ("SLCTCANV:" +:+ fName canv)
            | None =>
                match GetActiveRCanvas (this w) with
                | Some (i, rcanv) =>
                    modify (on_this (fun b =>
                      with_fRCanvases (<[i := draw_on_rcanvas tobj drawingOptions rcanv]> (fRCanvases b)) b));;;
                    ret ("SLCTCANV:" +:+ rTitle rcanv)
                | None => ret EmptyString
                end
            end
        end
  end.

(** The name AddCanvas forms with [Form("webcanv%d", (int)(size+1))]. *)
Definition webcanv_name (canvases : list TCanvas) : string :=
  "webcanv" +:+ pretty (to_int (size_t_add (vector_size canvases) 1)).

(** The name AddRCanvas forms with [std::to_string(size+1)]. *)
Definition rcanv_name (rcanvases : list RCanvas) : string :=
  "rcanv" +:+ pretty (size_t_add (vector_size rcanvases) 1).

(** RBrowser::AddCanvas *)
Definition AddCanvas : comp World TCanvas :=
  w <- get;;
  let canv_name := webcanv_name (fCanvases (this w)) in
  let canv := {| fName := canv_name; fTitle := canv_name; fPrimitives := [];
                 fCanvasImp := windows (host w) |} in
  modify (on_this (with_fActiveCanvas (fName canv)));;;
  modify (on_host (fun h => with_windows (S (windows h)) h));;;
  modify (on_this (fun b => with_fCanvases (fCanvases b ++ [canv]) b));;;
  ret canv.

(** RBrowser::AddRCanvas *)
Definition AddRCanvas : comp World RCanvas :=
  w <- get;;
  let name := rcanv_name (fRCanvases (this w)) in
  let canv := {| rTitle := name; rPrimitives := []; rWindow := windows (host w) |} in
  modify (on_host (fun h => with_windows (S (windows h)) h));;;
  modify (on_this (with_fActiveCanvas name));;;
  modify (on_this (fun b => with_fRCanvases (fRCanvases b ++ [canv]) b));;;
  ret canv.

(** RBrowser::GetCanvasUrl *)
Definition GetCanvasUrl (canv : TCanvas) : string := GetRelativeAddr (fCanvasImp canv).

(** RBrowser::GetRCanvasUrl *)
Definition GetRCanvasUrl (canv : RCanvas) : string :=
  "../" +:+ GetWindowAddr (rWindow canv) +:+ "/".

(** RBrowser::CloseCanvas *)
Definition CloseCanvas (name : string) : comp World unit :=
  w <- get;;
  match list_find (fun canv => name = fName canv) (fCanvases (this w)) with
  | Some (iter, _) => modify (on_this (fun b => with_fCanvases (delete iter (fCanvases b)) b))
  | None => ret tt
  end;;;
  w <- get;;
  if String.eqb (fActiveCanvas (this w)) name
  then modify (on_this (with_fActiveCanvas EmptyString))
  else ret tt.

(** The listing SendInitMsg serialises: a (kind, url, name) triple for
    every open canvas, the legacy ones first. *)
Definition init_listing (b : RBrowser) : list (list string) :=
  map (fun canv => ["root6"; GetCanvasUrl canv; fName canv]) (fCanvases b)
  ++ map (fun canv => ["root7"; GetRCanvasUrl canv; rTitle canv]) (fRCanvases b).

Definition init_msg (b : RBrowser) : string :=
  "INMSG:" +:+ c_str (ToJSON_table (init_listing b)).

(** RBrowser::SendInitMsg *)
Definition SendInitMsg (connid : nat) : comp World unit :=
  w <- get;;
  Send connid (init_msg (this w)).

Definition quote : ascii := "034"%char.

(** RBrowser::GetCurrentWorkingDirectory *)
Definition GetCurrentWorkingDirectory (b : RBrowser) : string :=
  "GETWORKDIR: { " +:+ String quote "path" +:+ String quote ": " +:+ String quote
    (fWorkingDirectory b +:+ String quote "}").

(** RBrowser::WebWindowCallback: the data received from the client. *)
Definition WebWindowCallback (connid : nat) (arg : string) : comp World unit :=
  if String.eqb arg "QUIT_ROOT" then
    modify (on_window (with_fTerminated true))
  else if StdString.compare0 arg 6 "BRREQ:" then
    payload <- substr arg 6;;
    json <- ProcessBrowserRequest payload;;
    if (0 <? StdString.size json)%nat then Send connid json else ret tt
  else if String.eqb arg "NEWCANVAS" then
    w <- get;;
    reply <- (if fUseRCanvas (this w) then
                canv <- AddRCanvas;;
                ret ["root7"; GetRCanvasUrl canv; rTitle canv]
              else
                canv <- AddCanvas;;
                ret ["root6"; GetCanvasUrl canv; fName canv]);;
    Send connid ("CANVS:" +:+ c_str (ToJSON_strings reply))
  else if StdString.compare0 arg 7 "DBLCLK:" then
    c <- at_ arg 8;;
    if negb (Ascii.eqb c "["%char) then
      item <- substr arg 7;;
      str <- ProcessDblClick item EmptyString;;
      Send connid str
    else
      payload <- substr arg 7;;
      match FromJSON_strings payload with
      | Some arr =>
          item <- vector_at arr 0;;
          opt <- vector_at arr 1;;
          str <- ProcessDblClick item opt;;
          if (0 <? StdString.size str)%nat then Send connid str else ret tt
      | None => ret tt
      end
  else if StdString.compare0 arg 9 "RUNMACRO:" then
    payload <- substr arg 9;;
    ProcessRunCommand payload;;;
    ret tt
  else if StdString.compare0 arg 9 "SAVEFILE:" then
    payload <- substr arg 9;;
    ProcessSaveFile payload;;;
    ret tt
  else if StdString.compare0 arg 14 "SELECT_CANVAS:" then
    name <- substr arg 14;;
    modify (on_this (with_fActiveCanvas name))
  else if StdString.compare0 arg 13 "CLOSE_CANVAS:" then
    name <- substr arg 13;;
    CloseCanvas name
  else if StdString.compare0 arg 11 "GETWORKDIR:" then
    w <- get;;
    Send connid (GetCurrentWorkingDirectory (this w))
  else if StdString.compare0 arg 6 "CHDIR:" then
    dir <- substr arg 6;;
    modify (on_this (with_fWorkingDirectory dir));;;
    modify (on_this (fun b => with_fBrowsable (SetTopItem dir (fBrowsable b)) b));;;
    w <- get;;
    (if DirectoryExists (host w) (c_str dir)
     then modify (on_host (with_cwd (c_str dir)))
     else ret tt);;;
    w <- get;;
    Send connid (GetCurrentWorkingDirectory (this w))
  else ret tt.

(** The loop of RBrowser::Show over the connections [n], [n+1], ... *)
Fixpoint reload_from (todo n : nat) : comp World unit :=
  match todo with
  | O => ret tt
  | S todo' =>
      w <- get;;
      WebWindowCallback (GetConnectionId w n) "RELOAD";;;
      reload_from todo' (S n)
  end.

(** RBrowser::Show *)
Definition Show (always_start_new_browser : bool) : comp World unit :=
  w <- get;;
  let number := NumConnections w in
  if (number =? 0)%nat || always_start_new_browser then
    modify (on_window (fun win => with_fShown (S (fShown win)) win))
  else reload_from number 0.

(** RBrowser::Hide *)
Definition Hide : comp World unit := modify (on_window (with_fConn [])).

(** The constructor, run in a host [h]: the window is created and shown,
    then the first canvas is added. *)
Definition RBrowser_new (use_rcanvas : bool) (h : Host) : outcome unit * World :=
  let h := with_windows (S (windows h)) h in
  let b := {| fUseRCanvas := use_rcanvas;
              fWorkingDirectory := cwd h;
              fActiveCanvas := EmptyString;
              fConnId := 0%nat;
              fBrowsable := SetTopItem (cwd h) RBrowsable_new;
              fCanvases := [];
              fRCanvases := [];
              fWebWindow := {| fConn := []; fSent := []; fShown := 0%nat; fTerminated := false |} |} in
  (* Show() with its default arguments: no new window is forced *)
  (Show false;;;
   w <- get;;
   if fUseRCanvas (this w) then AddRCanvas;;; ret tt else AddCanvas;;; ret tt)
    {| this := b; host := h |}.

(** The first call-back given to SetCallBacks, run when the window
    accepts the connection [connid]. *)
Definition on_connect (connid : nat) : comp World unit :=
  modify (on_window (fun win => with_fConn (fConn win ++ [connid]) win));;;
  modify (on_this (with_fConnId connid));;;
  SendInitMsg connid.

(** The states a session goes through: the constructor, then connections
    (one at a time, the limit set by SetConnLimit), messages whose
    handling returns, and calls of the public Show and Hide. *)
Inductive reachable : World -> Prop :=
  | reach_new use_rcanvas h w :
      RBrowser_new use_rcanvas h = (Ret tt, w) -> reachable w
  | reach_connect connid w w' :
      reachable w -> (NumConnections w < 1)%nat ->
      on_connect connid w = (Ret tt, w') -> reachable w'
  | reach_message connid arg w w' :
      reachable w -> WebWindowCallback connid arg w = (Ret tt, w') -> reachable w'
  | reach_show always w w' :
      reachable w -> Show always w = (Ret tt, w') -> reachable w'
  | reach_hide w w' :
      reachable w -> Hide w = (Ret tt, w') -> reachable w'.

(** The conditions of the if-chain of WebWindowCallback, in order. *)
Definition recognisers : list (string -> bool) :=
  [ (fun arg => String.eqb arg "QUIT_ROOT");
    (fun arg => StdString.compare0 arg 6 "BRREQ:");
    (fun arg => String.eqb arg "NEWCANVAS");
    (fun arg => StdString.compare0 arg 7 "DBLCLK:");
    (fun arg => StdString.compare0 arg 9 "RUNMACRO:");
    (fun arg => StdString.compare0 arg 9 "SAVEFILE:");
    (fun arg => StdString.compare0 arg 14 "SELECT_CANVAS:");
    (fun arg => StdString.compare0 arg 13 "CLOSE_CANVAS:");
    (fun arg => StdString.compare0 arg 11 "GETWORKDIR:");
    (fun arg => StdString.compare0 arg 6 "CHDIR:") ].

(** The first two characters of a message. *)
Definition head2 (arg : string) : option (ascii * ascii) :=
  match arg with
  | String a (String b _) => Some (a, b)
  | _ => None
  end.

(** The first two characters each condition asks for, in the same order. *)
Definition initials : list (ascii * ascii) :=
  [ ("Q", "U"); ("B", "R"); ("N", "E"); ("D", "B"); ("R", "U");
    ("S", "A"); ("S", "E"); ("C", "L"); ("G", "E"); ("C", "H") ]%char.

(** *** The canvas registry over a session *)

(** What a client asks of the registry. *)
Inductive registry_op : Type :=
  | Create                    (* NEWCANVAS: AddRCanvas or AddCanvas, by the mode *)
  | Close (name : string).    (* CLOSE_CANVAS:name *)

(** The names given to the canvases that a sequence of requests creates,
    in the order of creation. *)
Fixpoint created_names (ops : list registry_op) (w : World) : list string :=
  match ops with
  | [] => []
  | Create :: rest =>
      if fUseRCanvas (this w) then
        match AddRCanvas w with
        | (Ret canv, w') => rTitle canv :: created_names rest w'
        | (Raise _, _) => []
        end
      else
        match AddCanvas w with
        | (Ret canv, w') => fName canv :: created_names rest w'
        | (Raise _, _) => []
        end
  | Close name :: rest => created_names rest (snd (CloseCanvas name w))
  end.

(** How many canvases carry the active name: the legacy ones by name, the
    next-generation ones by title. *)
Definition active_canvases (b : RBrowser) : nat :=
  (length (filter (fun canv => fActiveCanvas b = fName canv) (fCanvases b))
   + length (filter (fun canv => fActiveCanvas b = rTitle canv) (fRCanvases b)))%nat.

(** The reply to GETWORKDIR: and CHDIR: for the directory [dir]. *)
Definition workdir_reply (dir : string) : string :=
  "GETWORKDIR: { " +:+ String quote "path" +:+ String quote ": " +:+ String quote dir
    +:+ String quote "}".

(** The state CHDIR:dir leaves behind, before its reply is sent. *)
Definition changed_directory (dir : string) (w : World) : World :=
  let w := on_this (with_fWorkingDirectory dir) w in
  let w := on_this (fun b => with_fBrowsable (SetTopItem dir (fBrowsable b)) b) w in
  if DirectoryExists (host w) (c_str dir) then on_host (with_cwd (c_str dir)) w else w.

(** The names [prefix next], [prefix (next+1)], ... of [n] canvases. *)
Fixpoint names_from (prefix : string) (next : Z) (n : nat) : list string :=
  match n with
  | O => []
  | S n' => (prefix +:+ pretty next) :: names_from prefix (next + 1) n'
  end.

(** *** The replies *)

(** The prefixes of the messages the browser sends. *)
Definition reply_prefixes : list string :=
  ["BREPL:"; "CANVS:"; "FREAD:"; "SLCTCANV:"; "GETWORKDIR:"; "INMSG:"].

(** A message the client can expect: empty, or one of the prefixes
    followed by its payload. *)
Definition expected_reply (msg : string) : Prop :=
  msg = EmptyString \/ exists p rest, p ∈ reply_prefixes /\ msg = p +:+ rest.

(** The object an RCanvas draws for [tobj]: a clone, taken out of its
    directory when it is a histogram. *)
Definition detached_clone (tobj : TObject) : TObject :=
  if IsTH1 (Clone tobj) then SetDirectoryNull (Clone tobj) else Clone tobj.

(** The first field of a payload: the characters before its first ':'. *)
Definition first_field (payload : string) : string :=
  match StdString.find colon payload with
  | Some i => StdString.take i payload
  | None => payload
  end.

End RBrowser.

(** ** A small framework to run the browser in

    Objects are their names; the tree adapter is the directory it is
    rooted at and resolves a path to the text of the local file under
    that root, or to the object [hist] for the path [/hist]; JSON arrays
    of strings are printed without escapes and never parsed. *)

Module Demo.

Definition json_strings (l : list string) : string :=
  "[" +:+ String.concat "," (map (fun s => String quote (s +:+ String quote EmptyString)) l) +:+ "]".

#[export] Instance framework : Framework := {|
  TObject := string;
  Clone := fun o => o;
  IsTH1 := fun _ => false;
  SetDirectoryNull := fun o => o;
  RBrowsable := string;
  RBrowserReplyNew := string;
  RBrowsable_new := EmptyString;
  SetTopItem := fun dir _ => dir;
  ProcessRequest := fun _ req tree => (tree +:+ path req, tree);
  GetElement := fun h item tree =>
    (match files h !! (tree +:+ item) with
     | Some text =>
         Some {| HasTextContent := true; GetTextContent := text; GetObjectToDraw := None |}
     | None =>
         if String.eqb item "/hist"
         then Some {| HasTextContent := false; GetTextContent := EmptyString;
                      GetObjectToDraw := Some "hist" |}
         else None
     end, tree);
  FromJSON_RBrowserRequest := fun _ => None;
  FromJSON_strings := fun _ => None;
  ToJSON_RBrowserReplyNew := fun r => r;
  ToJSON_strings := json_strings;
  ToJSON_table := fun t => "[" +:+ String.concat "," (map json_strings t) +:+ "]";
  GetRelativeAddr := fun n => "../win" +:+ pretty n +:+ "/";
  GetWindowAddr := fun n => "win" +:+ pretty n;
  ResolvePath := fun dir name => dir +:+ "/" +:+ name;
  CanOpenForWriting := fun _ _ => true;
  DirectoryExists := fun _ _ => true;
  ExecuteMacro := fun _ h => (0, h);
|}.

(** A host in [/home] with one file, and the session started in it. *)
Definition host0 : Host :=
  {| cwd := "/home"; files := {[ "/home/readme.txt" := "hello" ]}; windows := 0%nat |}.

Definition legacy0 : World := snd (RBrowser_new false host0).
Definition nextgen0 : World := snd (RBrowser_new true host0).

(** Runs the messages of one connection in order, stopping at the first
    that raises. *)
Fixpoint receive (connid : nat) (msgs : list string) : comp World unit :=
  match msgs with
  | [] => ret tt
  | arg :: rest => bind (WebWindowCallback connid arg) (fun _ => receive connid rest)
  end.

(** The session once the connection 7 is accepted. *)
Definition connected0 : World := snd (on_connect 7 legacy0).

(** A second canvas is created, the first one closed, a third created. *)
Definition collided : World :=
  snd (receive 1 ["NEWCANVAS"; "CLOSE_CANVAS:webcanv1"; "NEWCANVAS"] legacy0).

(** The client selects a canvas that does not exist. *)
Definition dangling : World := snd (receive 1 ["SELECT_CANVAS:nosuch"] legacy0).

(** The reply to GETWORKDIR: with no blank after the opening brace. *)
Definition compact_workdir_reply (dir : string) : string :=
  "GETWORKDIR: {" +:+ String quote "path" +:+ String quote ": " +:+ String quote dir
    +:+ String quote "}".

End Demo.

(** ** The small framework with a reader of arrays

    The same framework, except that arrays of strings are parsed: blanks,
    an opening bracket, strings in double quotes (without escapes)
    separated by commas or blanks, a closing bracket at the end. *)

Module Reader.

(** Reads the items after the opening bracket; [cur] is the string being
    read, if one is open. *)
Fixpoint parse_items (s : string) (cur : option string) (acc : list string)
  : option (list string) :=
  match s with
  | EmptyString => None
  | String c r =>
      match cur with
      | Some text =>
          if Ascii.eqb c quote then parse_items r None (acc ++ [text])
          else parse_items r (Some (text +:+ String c EmptyString)) acc
      | None =>
          if Ascii.eqb c "]" then (if String.eqb r EmptyString then Some acc else None)
          else if Ascii.eqb c "," || Ascii.eqb c " " then parse_items r None acc
          else if Ascii.eqb c quote then parse_items r (Some EmptyString) acc
          else None
      end
  end.

Fixpoint parse_strings (s : string) : option (list string) :=
  match s with
  | EmptyString => None
  | String c r =>
      if Ascii.eqb c " " then parse_strings r
      else if Ascii.eqb c "[" then parse_items r None []
      else None
  end.

Definition framework : Framework := {|
  TObject := @TObject Demo.framework;
  Clone := @Clone Demo.framework;
  IsTH1 := @IsTH1 Demo.framework;
  SetDirectoryNull := @SetDirectoryNull Demo.framework;
  RBrowsable := @RBrowsable Demo.framework;
  RBrowserReplyNew := @RBrowserReplyNew Demo.framework;
  RBrowsable_new := @RBrowsable_new Demo.framework;
  SetTopItem := @SetTopItem Demo.framework;
  ProcessRequest := @ProcessRequest Demo.framework;
  GetElement := @GetElement Demo.framework;
  FromJSON_RBrowserRequest := fun s =>
    if String.eqb s "{}" then Some {| path := "/"; first := 0; number := 10 |} else None;
  FromJSON_strings := parse_strings;
  ToJSON_RBrowserReplyNew := @ToJSON_RBrowserReplyNew Demo.framework;
  ToJSON_strings := @ToJSON_strings Demo.framework;
  ToJSON_table := @ToJSON_table Demo.framework;
  GetRelativeAddr := @GetRelativeAddr Demo.framework;
  GetWindowAddr := @GetWindowAddr Demo.framework;
  ResolvePath := @ResolvePath Demo.framework;
  CanOpenForWriting := fun _ target => negb (String.eqb target "/home/locked");
  DirectoryExists := @DirectoryExists Demo.framework;
  ExecuteMacro := @ExecuteMacro Demo.framework;
|}.

(** The sessions started in [host0] with this framework. *)
Definition legacy : @World framework := snd (@RBrowser_new framework false Demo.host0).
Definition nextgen : @World framework := snd (@RBrowser_new framework true Demo.host0).

(** The message [DBLCLK: ["item"]] and [DBLCLK: ["item","opt"]]. *)
Definition dblclk1 (item : string) : string :=
  "DBLCLK: [" +:+ String quote item +:+ String quote "]".
Definition dblclk2 (item opt : string) : string :=
  "DBLCLK: [" +:+ String quote item +:+ String quote "," +:+ String quote opt
    +:+ String quote "]".

End Reader.

(** ** Proof steps *)

(** Spells a literal prefix out in front of a payload. *)
Ltac spell :=
  repeat match goal with
         | |- context [String ?c ?s +:+ ?t] =>
             change (String c s +:+ t) with (String c (s +:+ t))
         | |- context [EmptyString +:+ ?t] => change (EmptyString +:+ t) with t
         end.

(** Splits on the innermost test or match of the goal, again and again. *)
Ltac split_innermost :=
  match goal with
  | |- context [match ?x with _ => _ end] =>
      lazymatch x with
      | context [match _ with _ => _ end] => fail
      | _ => destruct x eqn:?
      end
  end.

Ltac cases := repeat (split_innermost; cbn [fst snd]).

(** Unfolds a handler down to the state it computes. *)
Ltac unfold_handlers :=
  unfold WebWindowCallback, ProcessBrowserRequest, ProcessDblClick, ProcessSaveFile,
    ProcessRunCommand, CloseCanvas, AddCanvas, AddRCanvas, SendInitMsg, Send,
    ofstream_open, ofstream_write, vector_index, vector_at, substr, at_,
    bind, ret, raise, get, modify;
  cbv zeta.

(** Shows that a message is one the client expects. *)
Ltac expected :=
  first
    [ left; reflexivity
    | right; exists "BREPL:"; eexists; split; [set_solver | reflexivity]
    | right; exists "CANVS:"; eexists; split; [set_solver | reflexivity]
    | right; exists "FREAD:"; eexists; split; [set_solver | reflexivity]
    | right; exists "SLCTCANV:"; eexists; split; [set_solver | reflexivity]
    | right; exists "GETWORKDIR:"; eexists; split; [set_solver | reflexivity]
    | right; exists "INMSG:"; eexists; split; [set_solver | reflexivity] ].

(** Runs the monadic glue of a computation. *)
Ltac run := unfold bind, ret, raise, get, modify; cbn.

(** ** std::string facts *)

Section Strings.

Lemma take_append (s t : string) : StdString.take (StdString.size s) (s +:+ t) = s.
Proof. induction s as [|c s IH]; simpl; [now destruct t | now rewrite IH]. Qed.

Lemma get_size_None (s : string) (i : nat) :
  (StdString.size s <= i)%nat -> String.get i s = None.
Proof.
  revert i; induction s as [|c s IH]; intros i Hi; simpl in *; [reflexivity|].
  destruct i as [|i]; [lia|]. apply IH; lia.
Qed.

Lemma find_contains (c : ascii) (s : string) :
  StdString.contains c s = false <-> StdString.find c s = None.
Proof.
  induction s as [|d s IH]; simpl; [tauto|].
  destruct (Ascii.eqb d c); simpl; [split; discriminate|].
  rewrite IH. destruct (StdString.find c s); simpl; split; congruence.
Qed.

Lemma find_append_fresh (c : ascii) (s t : string) :
  StdString.contains c s = false ->
  StdString.find c (s +:+ String c t) = Some (StdString.size s).
Proof.
  induction s as [|d s IH]; simpl.
  - intros _. now rewrite Ascii.eqb_refl.
  - destruct (Ascii.eqb d c); simpl; [discriminate|].
    intros H. now rewrite (IH H).
Qed.

Lemma c_str_clean (s : string) : StdString.contains nul s = false -> c_str s = s.
Proof. intros H. unfold c_str. apply find_contains in H. now rewrite H. Qed.

End Strings.

(** ** The dispatcher *)

Section Dispatcher.
Context `{FW : Framework}.

Lemma recogniser_initials (i : nat) (r : string -> bool) (arg : string) :
  recognisers !! i = Some r -> r arg = true -> head2 arg = initials !! i.
Proof.
  unfold recognisers, StdString.compare0. intros Hr Harg.
  do 10 (destruct i as [|i];
         [ cbn in Hr; injection Hr as <-; apply String.eqb_eq in Harg;
           destruct arg as [|a [|b rest]]; cbn in Harg; try discriminate Harg;
           injection Harg as -> -> _; reflexivity | ]).
  discriminate Hr.
Qed.

Lemma initials_NoDup : NoDup initials.
Proof. apply (bool_decide_unpack _). vm_compute. exact I. Qed.

(** No message satisfies two conditions of the chain: the branch taken is
    the only one that could be. *)
Lemma recognisers_exclusive (arg : string) (i j : nat) (r r' : string -> bool) :
  recognisers !! i = Some r -> recognisers !! j = Some r' ->
  r arg = true -> r' arg = true -> i = j.
Proof.
  intros Hi Hj Hr Hr'.
  pose proof (recogniser_initials i r arg Hi Hr) as Ei.
  pose proof (recogniser_initials j r' arg Hj Hr') as Ej.
  destruct (head2 arg) as [ab|] eqn:E.
  - eapply NoDup_lookup; [exact initials_NoDup | symmetry; exact Ei | symmetry; exact Ej].
  - apply lookup_lt_Some in Hi. symmetry in Ei. apply lookup_ge_None in Ei.
    simpl in Hi, Ei. lia.
Qed.

(** A message that satisfies none of the conditions is ignored: nothing
    is sent and nothing changes. *)
Lemma WebWindowCallback_unrecognised (connid : nat) (arg : string) (w : World) :
  Forall (fun r : string -> bool => r arg = false) recognisers ->
  WebWindowCallback connid arg w = (Ret tt, w).
Proof.
  unfold recognisers. intros H.
  repeat (apply Forall_cons in H as [? H]).
  unfold WebWindowCallback.
  repeat match goal with E : _ = false |- _ => rewrite E; clear E end.
  reflexivity.
Qed.

(** The RELOAD that Show passes to the dispatcher is such a message. *)
Lemma WebWindowCallback_RELOAD (connid : nat) (w : World) :
  WebWindowCallback connid "RELOAD" w = (Ret tt, w).
Proof. reflexivity. Qed.

(** A request whose JSON does not parse is dropped. *)
Lemma WebWindowCallback_BRREQ_malformed (connid : nat) (json : string) (w : World) :
  json <> EmptyString -> FromJSON_RBrowserRequest json = None ->
  WebWindowCallback connid ("BRREQ:" +:+ json) w = (Ret tt, w).
Proof.
  intros Hne Hjson. unfold WebWindowCallback. spell. cbn.
  unfold ProcessBrowserRequest, bind.
  destruct json as [|c json]; [congruence|]. cbn. rewrite Hjson. reflexivity.
Qed.

(** And so is a double click in the array form, from nine characters on,
    whose JSON does not parse. *)
Lemma WebWindowCallback_DBLCLK_malformed (connid : nat) (c : ascii) (rest : string) (w : World) :
  FromJSON_strings (String c (String "[" rest)) = None ->
  WebWindowCallback connid ("DBLCLK:" +:+ String c (String "[" rest)) w = (Ret tt, w).
Proof.
  intros Hjson. unfold WebWindowCallback. spell. cbn. unfold bind. cbn. rewrite Hjson. reflexivity.
Qed.

(** A double click needs the character at position 8: a message that
    starts with DBLCLK: and has at most 8 characters raises. *)
Lemma WebWindowCallback_DBLCLK_short (connid : nat) (arg : string) (w : World) :
  StdString.compare0 arg 7 "DBLCLK:" = true -> (StdString.size arg <= 8)%nat ->
  WebWindowCallback connid arg w = (Raise out_of_range, w).
Proof.
  intros Hpre Hlen. unfold WebWindowCallback. rewrite Hpre.
  assert (String.eqb arg "QUIT_ROOT" = false) as ->.
  { apply String.eqb_neq. intros ->. discriminate Hpre. }
  assert (StdString.compare0 arg 6 "BRREQ:" = false) as ->.
  { unfold StdString.compare0 in *. apply String.eqb_eq in Hpre.
    destruct arg as [|a arg]; [discriminate|]. simpl in Hpre. injection Hpre as -> _.
    reflexivity. }
  assert (String.eqb arg "NEWCANVAS" = false) as ->.
  { apply String.eqb_neq. intros ->. discriminate Hpre. }
  unfold bind, at_. rewrite (get_size_None arg 8 Hlen). reflexivity.
Qed.

(** *** Show *)

Lemma reload_from_skips (todo n : nat) (w : World) : reload_from todo n w = (Ret tt, w).
Proof.
  revert n; induction todo as [|todo IH]; intros n; [reflexivity|].
  cbn [reload_from]. unfold bind, get. rewrite WebWindowCallback_RELOAD. apply IH.
Qed.

(** C1. With a connection open, Show (not forced to start a new window)
    leaves the window alone and passes RELOAD to the dispatcher for every
    connection; the dispatcher has no branch for RELOAD, so nothing is
    sent, the initialization listing included, and the state is the one
    before the call. *)
Theorem Show_reload_sends_nothing (w : World) :
  NumConnections w <> 0%nat -> Show false w = (Ret tt, w).
Proof.
  intros Hconn. unfold Show, bind, get.
  destruct (NumConnections w) as [|k] eqn:E; [congruence|].
  cbn [Nat.eqb orb]. apply reload_from_skips.
Qed.

(** Show opens a window only without a connection or when forced to. *)
Lemma Show_starts_window (always : bool) (w : World) :
  NumConnections w = 0%nat \/ always = true ->
  Show always w = (Ret tt, on_window (fun win => with_fShown (S (fShown win)) win) w).
Proof.
  intros H. unfold Show, bind, get.
  destruct H as [-> | ->]; [reflexivity|]. now rewrite orb_true_r.
Qed.

(** What re-sending the listing to a connection would have been. *)
Lemma SendInitMsg_sends (connid : nat) (w : World) :
  SendInitMsg connid w =
    (Ret tt, on_window (fun win => with_fSent (fSent win ++ [(connid, init_msg (this w))]) win) w).
Proof. reflexivity. Qed.

(** *** Malformed and short messages *)

(** C3. The double click whose payload is the unfinished array [[]:
    the dispatcher asks for the character at position 8 of a message of
    8 characters and raises instead of dropping the message. *)
Theorem malformed_double_click_raises (connid : nat) (w : World) :
  WebWindowCallback connid "DBLCLK:[" w = (Raise out_of_range, w).
Proof. apply WebWindowCallback_DBLCLK_short; [reflexivity | cbn; lia]. Qed.

(** C7 (as amended). The message DBLCLK: with an empty payload has 7
    characters, position 8 is past its end, and handling it raises
    std::out_of_range: it is not a silent no-op. *)
Theorem empty_double_click_raises :
  StdString.size "DBLCLK:" = 7%nat /\
  String.get 8 "DBLCLK:" = None /\
  forall (connid : nat) (w : World),
    WebWindowCallback connid "DBLCLK:" w = (Raise out_of_range, w).
Proof.
  split; [reflexivity|]. split; [reflexivity|]. intros connid w.
  apply WebWindowCallback_DBLCLK_short; [reflexivity | cbn; lia].
Qed.

(** *** The working directory *)

Lemma GetCurrentWorkingDirectory_reply (b : RBrowser) :
  GetCurrentWorkingDirectory b = workdir_reply (fWorkingDirectory b).
Proof.
  unfold GetCurrentWorkingDirectory, workdir_reply. spell.
  repeat f_equal.
Qed.

Lemma WebWindowCallback_GETWORKDIR (connid : nat) (w : World) :
  WebWindowCallback connid "GETWORKDIR:" w =
    (Ret tt, on_window (fun win =>
       with_fSent (fSent win ++ [(connid, workdir_reply (fWorkingDirectory (this w)))]) win) w).
Proof.
  unfold WebWindowCallback. cbn -[GetCurrentWorkingDirectory]. unfold bind, get, Send, modify.
  now rewrite GetCurrentWorkingDirectory_reply.
Qed.

Lemma WebWindowCallback_CHDIR (connid : nat) (dir : string) (w : World) :
  WebWindowCallback connid ("CHDIR:" +:+ dir) w =
    (Ret tt, on_window (fun win => with_fSent (fSent win ++ [(connid, workdir_reply dir)]) win)
               (changed_directory dir w)).
Proof.
  unfold WebWindowCallback. spell. cbn -[GetCurrentWorkingDirectory].
  unfold bind, get, Send, modify, substr, ret, changed_directory.
  cbn -[GetCurrentWorkingDirectory].
  replace (StdString.drop 0 dir) with dir by now destruct dir.
  destruct (DirectoryExists _ _); cbn -[GetCurrentWorkingDirectory];
    now rewrite GetCurrentWorkingDirectory_reply.
Qed.

(** C6 (as amended). CHDIR:p and then GETWORKDIR: both return; each
    sends to its connection the text [GETWORKDIR: { "path": "p"}], with a
    blank after the opening brace and [p] copied as it is; CHDIR makes
    [p] the working directory of the browser and re-roots the browse tree
    at [p]. *)
Theorem chdir_then_getworkdir (connid : nat) (p : string) (w : World) :
  exists w1 w2,
    WebWindowCallback connid ("CHDIR:" +:+ p) w = (Ret tt, w1) /\
    WebWindowCallback connid "GETWORKDIR:" w1 = (Ret tt, w2) /\
    fSent (fWebWindow (this w2)) =
      fSent (fWebWindow (this w)) ++ [(connid, workdir_reply p); (connid, workdir_reply p)] /\
    fWorkingDirectory (this w1) = p /\
    fBrowsable (this w1) = SetTopItem p (fBrowsable (this w)).
Proof.
  eexists _, _. split; [apply WebWindowCallback_CHDIR|].
  split; [apply WebWindowCallback_GETWORKDIR|].
  unfold changed_directory. cbn.
  destruct (DirectoryExists _ _); cbn; rewrite <- app_assoc; auto.
Qed.

End Dispatcher.

(** ** The canvas registry *)

Section Registry.
Context `{FW : Framework}.

Lemma to_int_small (n : Z) : 0 <= n < 2 ^ 31 -> to_int n = n.
Proof. intros H. unfold to_int. rewrite Z.mod_small; lia. Qed.

Lemma size_t_add_small (a b : Z) : 0 <= a + b < 2 ^ 64 -> size_t_add a b = a + b.
Proof. intros H. unfold size_t_add. now rewrite Z.mod_small. Qed.

Lemma vector_size_nonneg {A} (v : list A) : 0 <= vector_size v.
Proof. unfold vector_size. lia. Qed.

Lemma vector_size_push {A} (v : list A) (x : A) : vector_size (v ++ [x]) = vector_size v + 1.
Proof. unfold vector_size. rewrite length_app. cbn. lia. Qed.

Lemma webcanv_name_small (canvases : list TCanvas) :
  vector_size canvases + 1 < 2 ^ 31 ->
  webcanv_name canvases = "webcanv" +:+ pretty (vector_size canvases + 1).
Proof.
  intros H. pose proof (vector_size_nonneg canvases). unfold webcanv_name.
  rewrite size_t_add_small by lia. rewrite to_int_small by lia. reflexivity.
Qed.

Lemma rcanv_name_small (rcanvases : list RCanvas) :
  vector_size rcanvases + 1 < 2 ^ 64 ->
  rcanv_name rcanvases = "rcanv" +:+ pretty (vector_size rcanvases + 1).
Proof.
  intros H. pose proof (vector_size_nonneg rcanvases). unfold rcanv_name.
  rewrite size_t_add_small by lia. reflexivity.
Qed.

(** AddCanvas returns; the canvas it appends is the active one. *)
Lemma AddCanvas_appends (w : World) :
  exists canv w',
    AddCanvas w = (Ret canv, w') /\
    fName canv = webcanv_name (fCanvases (this w)) /\
    fCanvases (this w') = fCanvases (this w) ++ [canv] /\
    fRCanvases (this w') = fRCanvases (this w) /\
    fActiveCanvas (this w') = fName canv /\
    fUseRCanvas (this w') = fUseRCanvas (this w).
Proof. eexists _, _. split; [unfold AddCanvas, AddRCanvas; run; reflexivity|]. cbn. auto. Qed.

Lemma AddRCanvas_appends (w : World) :
  exists canv w',
    AddRCanvas w = (Ret canv, w') /\
    rTitle canv = rcanv_name (fRCanvases (this w)) /\
    fRCanvases (this w') = fRCanvases (this w) ++ [canv] /\
    fCanvases (this w') = fCanvases (this w) /\
    fActiveCanvas (this w') = rTitle canv /\
    fUseRCanvas (this w') = fUseRCanvas (this w).
Proof. eexists _, _. split; [unfold AddCanvas, AddRCanvas; run; reflexivity|]. cbn. auto. Qed.

Lemma names_from_elem (prefix x : string) (next : Z) (n : nat) :
  x ∈ names_from prefix next n -> exists k, next <= k /\ x = prefix +:+ pretty k.
Proof.
  revert next; induction n as [|n IH]; intros next Hx; cbn in Hx.
  - now apply elem_of_nil in Hx.
  - apply elem_of_cons in Hx as [-> | Hx]; [exists next; split; [lia | reflexivity]|].
    destruct (IH _ Hx) as (k & Hk & ->). exists k. split; [lia | reflexivity].
Qed.

Lemma names_from_NoDup (prefix : string) (next : Z) (n : nat) :
  NoDup (names_from prefix next n).
Proof.
  revert next; induction n as [|n IH]; intros next; cbn; constructor; [|apply IH].
  intros Hin. apply names_from_elem in Hin as (k & Hk & E).
  apply (inj (String.app prefix)) in E. apply (inj pretty) in E. lia.
Qed.

Lemma created_names_legacy (n : nat) (w : World) :
  fUseRCanvas (this w) = false ->
  vector_size (fCanvases (this w)) + Z.of_nat n < 2 ^ 31 ->
  created_names (replicate n Create) w =
    names_from "webcanv" (vector_size (fCanvases (this w)) + 1) n.
Proof.
  revert w; induction n as [|n IH]; intros w Hmode Hsize; [reflexivity|].
  cbn [replicate created_names names_from]. rewrite Hmode.
  destruct (AddCanvas_appends w) as (canv & w' & -> & Hname & Hl & _ & _ & Hm).
  rewrite Hname, webcanv_name_small by lia. f_equal.
  rewrite IH; rewrite ?Hl, ?vector_size_push; [reflexivity | congruence | lia].
Qed.

Lemma created_names_nextgen (n : nat) (w : World) :
  fUseRCanvas (this w) = true ->
  vector_size (fRCanvases (this w)) + Z.of_nat n < 2 ^ 64 ->
  created_names (replicate n Create) w =
    names_from "rcanv" (vector_size (fRCanvases (this w)) + 1) n.
Proof.
  revert w; induction n as [|n IH]; intros w Hmode Hsize; [reflexivity|].
  cbn [replicate created_names names_from]. rewrite Hmode.
  destruct (AddRCanvas_appends w) as (canv & w' & -> & Hname & Hl & _ & _ & Hm).
  rewrite Hname, rcanv_name_small by lia. f_equal.
  rewrite IH; rewrite ?Hl, ?vector_size_push; [reflexivity | congruence | lia].
Qed.

(** C4 (as amended). AddCanvas names its canvas webcanvN and AddRCanvas
    names its canvas rcanvN, N being the length of the list at creation
    time plus 1 (as long as N fits the integer it is computed in), and the
    canvases created one after the other with no close in between get
    pairwise distinct names. *)
Theorem generated_canvas_names (w : World) (n : nat) :
  vector_size (fCanvases (this w)) + Z.of_nat n < 2 ^ 31 - 1 ->
  vector_size (fRCanvases (this w)) + Z.of_nat n < 2 ^ 64 - 1 ->
  (exists canv w', AddCanvas w = (Ret canv, w') /\
     fName canv = "webcanv" +:+ pretty (Z.of_nat (length (fCanvases (this w))) + 1) /\
     fCanvases (this w') = fCanvases (this w) ++ [canv]) /\
  (exists canv w', AddRCanvas w = (Ret canv, w') /\
     rTitle canv = "rcanv" +:+ pretty (Z.of_nat (length (fRCanvases (this w))) + 1) /\
     fRCanvases (this w') = fRCanvases (this w) ++ [canv]) /\
  NoDup (created_names (replicate n Create) w).
Proof.
  intros Hl Hr. split; [|split].
  - destruct (AddCanvas_appends w) as (canv & w' & E & Hname & Happ & _).
    exists canv, w'. rewrite Hname, webcanv_name_small by lia. auto.
  - destruct (AddRCanvas_appends w) as (canv & w' & E & Hname & Happ & _).
    exists canv, w'. rewrite Hname, rcanv_name_small by lia. auto.
  - destruct (fUseRCanvas (this w)) eqn:Hmode.
    + rewrite created_names_nextgen by (assumption || lia). apply names_from_NoDup.
    + rewrite created_names_legacy by (assumption || lia). apply names_from_NoDup.
Qed.

(** *** Closing a canvas *)

(** CloseCanvas returns; it erases the first legacy canvas with the name,
    if there is one, clears the active name when it is the name closed,
    and touches nothing else. *)
Lemma CloseCanvas_spec (name : string) (w : World) :
  exists w',
    CloseCanvas name w = (Ret tt, w') /\
    fCanvases (this w') =
      match list_find (fun canv => name = fName canv) (fCanvases (this w)) with
      | Some (iter, _) => delete iter (fCanvases (this w))
      | None => fCanvases (this w)
      end /\
    fRCanvases (this w') = fRCanvases (this w) /\
    fActiveCanvas (this w') =
      (if String.eqb (fActiveCanvas (this w)) name then EmptyString
       else fActiveCanvas (this w)) /\
    fWebWindow (this w') = fWebWindow (this w) /\
    fWorkingDirectory (this w') = fWorkingDirectory (this w) /\
    host w' = host w.
Proof.
  unfold CloseCanvas, bind, get.
  destruct (list_find _ (fCanvases (this w))) as [[iter canv]|] eqn:Efind;
    unfold modify, ret; cbn;
    destruct (String.eqb (fActiveCanvas (this w)) name) eqn:Eact;
    eexists; (split; [reflexivity|]); cbn; auto 10.
Qed.

(** The legacy canvas erased is the first one with the name: the ones
    before it and after it stay, in order. *)
Lemma CloseCanvas_erases_first (name : string) (w : World)
      (before after : list TCanvas) (canv : TCanvas) :
  fCanvases (this w) = before ++ canv :: after ->
  fName canv = name ->
  Forall (fun c => fName c <> name) before ->
  fCanvases (this (snd (CloseCanvas name w))) = before ++ after.
Proof.
  intros Hl Hname Hbefore.
  destruct (CloseCanvas_spec name w) as (w' & -> & Hc & _). cbn. rewrite Hc.
  assert (list_find (fun c => name = fName c) (fCanvases (this w))
          = Some (length before, canv)) as ->.
  { apply list_find_Some. rewrite Hl. split; [|split].
    - now rewrite list_lookup_middle.
    - congruence.
    - intros j y Hj Hlt E. rewrite lookup_app_l in Hj by lia.
      rewrite Forall_forall in Hbefore.
      apply (Hbefore y); [eapply list_elem_of_lookup_2; eassumption | congruence]. }
  rewrite Hl. apply delete_middle.
Qed.

(** No legacy canvas with the name: the list stays. *)
Lemma CloseCanvas_unknown (name : string) (w : World) :
  Forall (fun c => fName c <> name) (fCanvases (this w)) ->
  fCanvases (this (snd (CloseCanvas name w))) = fCanvases (this w).
Proof.
  intros Hall. destruct (CloseCanvas_spec name w) as (w' & -> & Hc & _). cbn. rewrite Hc.
  assert (list_find (fun c => name = fName c) (fCanvases (this w)) = None) as ->;
    [|reflexivity].
  apply list_find_None. eapply Forall_impl; [exact Hall|]. cbn. congruence.
Qed.

Lemma WebWindowCallback_CLOSE_CANVAS (connid : nat) (name : string) (w : World) :
  WebWindowCallback connid ("CLOSE_CANVAS:" +:+ name) w = CloseCanvas name w.
Proof.
  unfold WebWindowCallback. spell. cbn. unfold bind, substr, ret. cbn.
  now replace (StdString.drop 0 name) with name by now destruct name.
Qed.

(** C2. CLOSE_CANVAS:name looks for the name among the legacy canvases
    only: whatever the name, the handler returns with the list of
    next-generation canvases as it was, so a next-generation canvas is
    never removed; the active name is cleared when it is the name
    closed. *)
Theorem CLOSE_CANVAS_keeps_RCanvases (connid : nat) (name : string) (w : World) :
  exists w',
    WebWindowCallback connid ("CLOSE_CANVAS:" +:+ name) w = (Ret tt, w') /\
    fRCanvases (this w') = fRCanvases (this w) /\
    fActiveCanvas (this w') =
      (if String.eqb (fActiveCanvas (this w)) name then EmptyString
       else fActiveCanvas (this w)).
Proof.
  rewrite WebWindowCallback_CLOSE_CANVAS.
  destruct (CloseCanvas_spec name w) as (w' & E & _ & Hr & Ha & _).
  exists w'. auto.
Qed.

(** *** The active canvas *)

Lemma filter_length_0 {A} (P : A -> Prop) `{forall x, Decision (P x)} (l : list A) :
  length (filter P l) = 0%nat -> Forall (fun x => ~ P x) l.
Proof.
  induction l as [|x l IH]; intros Hlen; [constructor|].
  rewrite filter_cons in Hlen. destruct (decide (P x)); [discriminate|].
  constructor; auto.
Qed.

Lemma no_active_canvas (b : RBrowser) :
  active_canvases b = 0%nat -> GetActiveCanvas b = None /\ GetActiveRCanvas b = None.
Proof.
  unfold active_canvases, GetActiveCanvas, GetActiveRCanvas. intros H.
  apply Nat.eq_add_0 in H as [Hc Hr].
  split; apply list_find_None;
    [exact (filter_length_0 _ _ Hc) | exact (filter_length_0 _ _ Hr)].
Qed.

(** A double click never raises, and without an active canvas it leaves
    both lists as they are and replies with the text of the element or
    with nothing. *)
Lemma ProcessDblClick_no_active (item opt : string) (w : World) :
  active_canvases (this w) = 0%nat ->
  exists reply w',
    ProcessDblClick item opt w = (Ret reply, w') /\
    fCanvases (this w') = fCanvases (this w) /\
    fRCanvases (this w') = fRCanvases (this w) /\
    fActiveCanvas (this w') = fActiveCanvas (this w) /\
    (reply = EmptyString \/
     exists elem, fst (GetElement (host w) item (fBrowsable (this w))) = Some elem /\
                  HasTextContent elem = true /\ reply = "FREAD:" +:+ GetTextContent elem).
Proof.
  intros Hnone. apply no_active_canvas in Hnone as [Hc Hr].
  unfold GetActiveCanvas in Hc. unfold GetActiveRCanvas in Hr.
  unfold ProcessDblClick, bind, get.
  destruct (GetElement (host w) item (fBrowsable (this w))) as [[elem|] tree] eqn:Eelem;
    unfold modify, ret; cbn; [| eauto 10].
  destruct (HasTextContent elem) eqn:Etext; [eauto 12|].
  destruct (GetObjectToDraw elem) as [tobj|]; [|eauto 10].
  unfold GetActiveCanvas, GetActiveRCanvas. cbn. rewrite Hc, Hr. eauto 10.
Qed.

Lemma WebWindowCallback_SELECT_CANVAS (connid : nat) (name : string) (w : World) :
  WebWindowCallback connid ("SELECT_CANVAS:" +:+ name) w =
    (Ret tt, on_this (with_fActiveCanvas name) w).
Proof.
  unfold WebWindowCallback. spell. cbn. unfold bind, substr, ret, modify. cbn.
  now replace (StdString.drop 0 name) with name by now destruct name.
Qed.

(** A drawable object and an active legacy canvas: the state after the
    double click. *)
Lemma ProcessDblClick_on_legacy
      (item opt : string) (w : World) (elem : RBrowsableElement TObject)
      (tree : RBrowsable) (tobj : TObject) (i : nat) (canv : TCanvas) :
  GetElement (host w) item (fBrowsable (this w)) = (Some elem, tree) ->
  HasTextContent elem = false -> GetObjectToDraw elem = Some tobj ->
  GetActiveCanvas (this w) = Some (i, canv) ->
  exists w',
    ProcessDblClick item opt w = (Ret ("SLCTCANV:" +:+ fName canv), w') /\
    fCanvases (this w') = <[i := draw_on_canvas tobj opt canv]> (fCanvases (this w)) /\
    fRCanvases (this w') = fRCanvases (this w).
Proof.
  intros Helem Htext Hobj Hact. unfold GetActiveCanvas in Hact.
  unfold ProcessDblClick, GetActiveCanvas, bind, get. rewrite Helem. unfold modify, ret. cbn.
  rewrite Htext, Hobj.
  cbn [this on_this with_fBrowsable fActiveCanvas fCanvases fRCanvases].
  rewrite Hact. eexists. split; [reflexivity|]. cbn. auto.
Qed.

(** A drawable object, no active legacy canvas and an active
    next-generation canvas: the state after the double click. *)
Lemma ProcessDblClick_on_rcanvas
      (item opt : string) (w : World) (elem : RBrowsableElement TObject)
      (tree : RBrowsable) (tobj : TObject) (i : nat) (rcanv : RCanvas) :
  GetElement (host w) item (fBrowsable (this w)) = (Some elem, tree) ->
  HasTextContent elem = false -> GetObjectToDraw elem = Some tobj ->
  GetActiveCanvas (this w) = None ->
  GetActiveRCanvas (this w) = Some (i, rcanv) ->
  exists w',
    ProcessDblClick item opt w = (Ret ("SLCTCANV:" +:+ rTitle rcanv), w') /\
    fRCanvases (this w') = <[i := draw_on_rcanvas tobj opt rcanv]> (fRCanvases (this w)) /\
    fCanvases (this w') = fCanvases (this w).
Proof.
  intros Helem Htext Hobj Hnone Hact. unfold GetActiveCanvas in Hnone.
  unfold GetActiveRCanvas in Hact.
  unfold ProcessDblClick, GetActiveCanvas, GetActiveRCanvas, bind, get. rewrite Helem.
  unfold modify, ret. cbn. rewrite Htext, Hobj.
  cbn [this on_this with_fBrowsable fActiveCanvas fCanvases fRCanvases].
  rewrite Hnone, Hact. eexists. split; [reflexivity|]. cbn. auto.
Qed.

(** The legacy lookup finds exactly the first canvas with the active
    name, and nothing exactly when no canvas has it. *)
Lemma GetActiveCanvas_first (b : RBrowser) :
  (forall i canv, GetActiveCanvas b = Some (i, canv) <->
     fCanvases b !! i = Some canv /\ fName canv = fActiveCanvas b /\
     forall j c, (j < i)%nat -> fCanvases b !! j = Some c -> fName c <> fActiveCanvas b) /\
  (GetActiveCanvas b = None <-> Forall (fun c => fName c <> fActiveCanvas b) (fCanvases b)).
Proof.
  unfold GetActiveCanvas. split.
  - intros i canv. rewrite list_find_Some. split.
    + intros (Hi & Hname & Hfirst). repeat split; [assumption | congruence |].
      intros j c Hlt Hj E. apply (Hfirst j c Hj Hlt). congruence.
    + intros (Hi & Hname & Hfirst). repeat split; [assumption | congruence |].
      intros j c Hj Hlt E. apply (Hfirst j c Hlt Hj). congruence.
  - rewrite list_find_None. split; intros H; (eapply Forall_impl; [exact H|]);
      cbn; congruence.
Qed.

Lemma GetActiveRCanvas_first (b : RBrowser) :
  (forall i canv, GetActiveRCanvas b = Some (i, canv) <->
     fRCanvases b !! i = Some canv /\ rTitle canv = fActiveCanvas b /\
     forall j c, (j < i)%nat -> fRCanvases b !! j = Some c -> rTitle c <> fActiveCanvas b) /\
  (GetActiveRCanvas b = None <-> Forall (fun c => rTitle c <> fActiveCanvas b) (fRCanvases b)).
Proof.
  unfold GetActiveRCanvas. split.
  - intros i canv. rewrite list_find_Some. split.
    + intros (Hi & Hname & Hfirst). repeat split; [assumption | congruence |].
      intros j c Hlt Hj E. apply (Hfirst j c Hj Hlt). congruence.
    + intros (Hi & Hname & Hfirst). repeat split; [assumption | congruence |].
      intros j c Hj Hlt E. apply (Hfirst j c Hlt Hj). congruence.
  - rewrite list_find_None. split; intros H; (eapply Forall_impl; [exact H|]);
      cbn; congruence.
Qed.

(** C5 (as amended). The canvas that an operation takes as the active one
    is a single canvas. GetActiveCanvas yields a canvas exactly when it is
    the first legacy canvas whose name is the active string, and nothing
    exactly when no legacy canvas has that name; GetActiveRCanvas does the
    same with the titles of the next-generation list. SELECT_CANVAS
    stores any name. A double click on a drawable object draws on the
    legacy canvas found and changes no other canvas, or, when no legacy
    canvas is found, on the next-generation canvas found and no other.
    When no canvas carries the active string both lookups find nothing
    and a double click returns without a failure, leaving every canvas
    and the active string as they were. *)
Theorem active_canvas_lookup (w : World) :
  (forall i canv, GetActiveCanvas (this w) = Some (i, canv) <->
     fCanvases (this w) !! i = Some canv /\ fName canv = fActiveCanvas (this w) /\
     forall j c, (j < i)%nat -> fCanvases (this w) !! j = Some c ->
                 fName c <> fActiveCanvas (this w)) /\
  (GetActiveCanvas (this w) = None <->
     Forall (fun c => fName c <> fActiveCanvas (this w)) (fCanvases (this w))) /\
  (forall i canv, GetActiveRCanvas (this w) = Some (i, canv) <->
     fRCanvases (this w) !! i = Some canv /\ rTitle canv = fActiveCanvas (this w) /\
     forall j c, (j < i)%nat -> fRCanvases (this w) !! j = Some c ->
                 rTitle c <> fActiveCanvas (this w)) /\
  (GetActiveRCanvas (this w) = None <->
     Forall (fun c => rTitle c <> fActiveCanvas (this w)) (fRCanvases (this w))) /\
  (forall connid name,
     WebWindowCallback connid ("SELECT_CANVAS:" +:+ name) w =
       (Ret tt, on_this (with_fActiveCanvas name) w)) /\
  (forall item opt elem tree tobj,
     GetElement (host w) item (fBrowsable (this w)) = (Some elem, tree) ->
     HasTextContent elem = false -> GetObjectToDraw elem = Some tobj ->
     (forall i canv, GetActiveCanvas (this w) = Some (i, canv) ->
        exists w',
          ProcessDblClick item opt w = (Ret ("SLCTCANV:" +:+ fName canv), w') /\
          fCanvases (this w') = <[i := draw_on_canvas tobj opt canv]> (fCanvases (this w)) /\
          fRCanvases (this w') = fRCanvases (this w)) /\
     (GetActiveCanvas (this w) = None ->
      forall i rcanv, GetActiveRCanvas (this w) = Some (i, rcanv) ->
        exists w',
          ProcessDblClick item opt w = (Ret ("SLCTCANV:" +:+ rTitle rcanv), w') /\
          fRCanvases (this w') = <[i := draw_on_rcanvas tobj opt rcanv]> (fRCanvases (this w)) /\
          fCanvases (this w') = fCanvases (this w))) /\
  (active_canvases (this w) = 0%nat ->
     GetActiveCanvas (this w) = None /\ GetActiveRCanvas (this w) = None /\
     forall item opt, exists reply w',
       ProcessDblClick item opt w = (Ret reply, w') /\
       fCanvases (this w') = fCanvases (this w) /\
       fRCanvases (this w') = fRCanvases (this w) /\
       fActiveCanvas (this w') = fActiveCanvas (this w)).
Proof.
  destruct (GetActiveCanvas_first (this w)) as [Hc1 Hc2].
  destruct (GetActiveRCanvas_first (this w)) as [Hr1 Hr2].
  split; [exact Hc1|]. split; [exact Hc2|]. split; [exact Hr1|]. split; [exact Hr2|].
  split; [|split].
  - intros connid name. apply WebWindowCallback_SELECT_CANVAS.
  - intros item opt elem tree tobj Helem Htext Hobj. split.
    + intros i canv Hact.
      exact (ProcessDblClick_on_legacy item opt w elem tree tobj i canv Helem Htext Hobj Hact).
    + intros Hnone i rcanv Hact.
      exact (ProcessDblClick_on_rcanvas item opt w elem tree tobj i rcanv
               Helem Htext Hobj Hnone Hact).
  - intros Hnone. destruct (no_active_canvas _ Hnone) as [Hc Hr].
    repeat split; [assumption | assumption |].
    intros item opt.
    destruct (ProcessDblClick_no_active item opt w Hnone) as (reply & w' & E & ? & ? & ? & _).
    eauto 10.
Qed.

End Registry.

(** ** Saving a file *)

Section SaveFile.
Context `{FW : Framework}.

Lemma size_0 (s : string) : (StdString.size s =? 0)%nat = false <-> s <> EmptyString.
Proof. destruct s; cbn; split; congruence. Qed.

Lemma drop_past (c : ascii) (s t : string) :
  StdString.drop (S (StdString.size s)) (s +:+ String c t) = t.
Proof. induction s as [|d s IH]; cbn; [now destruct t | exact IH]. Qed.

Lemma take_before (c : ascii) (s t : string) :
  StdString.take (StdString.size s) (s +:+ String c t) = s.
Proof. apply take_append. Qed.

(** No separator: the whole payload is the one element of [split], and
    the empty payload gives no element at all. *)
Lemma split_path_no_colon (payload : string) :
  payload <> EmptyString -> StdString.contains colon payload = false ->
  split_path payload = [payload].
Proof.
  intros Hne Hc. apply size_0 in Hne. apply find_contains in Hc.
  unfold split_path, getline, istringstream_of. cbn [unread eofbit failbit orb].
  rewrite Hc, Hne. reflexivity.
Qed.

Lemma split_path_empty : split_path EmptyString = [].
Proof. reflexivity. Qed.

(** A name, the separator and a text without NUL that is not empty: the
    two elements are the name and the text. *)
Lemma split_path_name_text (name text : string) :
  StdString.contains colon name = false ->
  text <> EmptyString -> StdString.contains nul text = false ->
  split_path (name +:+ String colon text) = [name; text].
Proof.
  intros Hname Hne Hnul. apply size_0 in Hne. apply find_contains in Hnul.
  unfold split_path, getline, istringstream_of. cbn [unread eofbit failbit orb].
  rewrite (find_append_fresh _ _ _ Hname), take_before, drop_past.
  cbn [unread eofbit failbit orb]. rewrite Hnul, Hne. reflexivity.
Qed.

(** A name and the separator with nothing after it: one element only. *)
Lemma split_path_name_only (name : string) :
  StdString.contains colon name = false ->
  split_path (name +:+ String colon EmptyString) = [name].
Proof.
  intros Hname. unfold split_path, getline, istringstream_of.
  cbn [unread eofbit failbit orb].
  rewrite (find_append_fresh _ _ _ Hname), take_before, drop_past. reflexivity.
Qed.

(** The text is cut at its first NUL. *)
Lemma split_path_text_cut (name text rest : string) :
  StdString.contains colon name = false -> StdString.contains nul text = false ->
  split_path (name +:+ String colon (text +:+ String nul rest)) = [name; text].
Proof.
  intros Hname Hnul. unfold split_path, getline, istringstream_of.
  cbn [unread eofbit failbit orb].
  rewrite (find_append_fresh _ _ _ Hname), take_before, drop_past.
  cbn [unread eofbit failbit orb].
  rewrite (find_append_fresh _ _ _ Hnul), take_before. reflexivity.
Qed.

(** With one element in [split] the file is opened and then [split[1]]
    fails. *)
Lemma ProcessSaveFile_one_element (payload name : string) (w : World) :
  split_path payload = [name] ->
  fst (ProcessSaveFile payload w) = Raise index_out_of_bounds.
Proof.
  intros Hsplit. unfold ProcessSaveFile. rewrite Hsplit.
  unfold bind, vector_index, ofstream_open, bind, get. cbn.
  destruct (CanOpenForWriting _ _); reflexivity.
Qed.

Lemma ProcessSaveFile_empty (w : World) :
  ProcessSaveFile EmptyString w = (Raise index_out_of_bounds, w).
Proof. reflexivity. Qed.

(** With both elements the file [split[0]] holds exactly [split[1]]
    afterwards, provided the host lets it be opened; no other file and
    nothing of the browser changes. *)
Lemma ProcessSaveFile_two_elements (payload name text : string) (w : World) :
  split_path payload = [name; text] ->
  let target := ResolvePath (cwd (host w)) (c_str name) in
  CanOpenForWriting (host w) target = true ->
  exists w',
    ProcessSaveFile payload w = (Ret true, w') /\
    files (host w') !! target = Some text /\
    (forall other, other <> target -> files (host w') !! other = files (host w) !! other) /\
    this w' = this w.
Proof.
  intros Hsplit target Hopen. unfold ProcessSaveFile. rewrite Hsplit.
  unfold bind, vector_index, ofstream_open, bind, get. cbn. fold target. rewrite Hopen.
  unfold modify, ret, ofstream_write, modify. cbn.
  eexists. split; [reflexivity|]. cbn. split; [|split; [|reflexivity]].
  - rewrite lookup_insert_eq. cbn. now rewrite lookup_insert_eq.
  - intros other Hother. now rewrite !lookup_insert_ne by congruence.
Qed.

Lemma WebWindowCallback_SAVEFILE_run (connid : nat) (payload : string) (w : World) :
  WebWindowCallback connid ("SAVEFILE:" +:+ payload) w =
    bind (ProcessSaveFile payload) (fun _ => ret tt) w.
Proof. unfold WebWindowCallback. spell. reflexivity. Qed.

(** SAVEFILE:name:text for a name without ':' or NUL and a text that is
    not empty and has no NUL: the file the host resolves the name to
    holds exactly the text afterwards, when the host lets it be opened. *)
Lemma WebWindowCallback_SAVEFILE (connid : nat) (name text : string) (w : World) :
  StdString.contains colon name = false -> StdString.contains nul name = false ->
  text <> EmptyString -> StdString.contains nul text = false ->
  let target := ResolvePath (cwd (host w)) name in
  CanOpenForWriting (host w) target = true ->
  exists w',
    WebWindowCallback connid ("SAVEFILE:" +:+ name +:+ String colon text) w = (Ret tt, w') /\
    files (host w') !! target = Some text /\
    (forall other, other <> target -> files (host w') !! other = files (host w) !! other) /\
    this w' = this w.
Proof.
  intros Hname Hclean Hne Hnul target Hopen.
  pose proof (ProcessSaveFile_two_elements _ _ _ w (split_path_name_text _ _ Hname Hne Hnul))
    as H.
  rewrite (c_str_clean _ Hclean) in H. destruct (H Hopen) as (w' & E & Hfile & Hother & Hthis).
  exists w'. split; [|auto].
  rewrite WebWindowCallback_SAVEFILE_run. unfold bind. now rewrite E.
Qed.

(** SAVEFILE:name: with nothing after the separator does not return. *)
Lemma WebWindowCallback_SAVEFILE_no_text (connid : nat) (name : string) (w : World) :
  StdString.contains colon name = false ->
  fst (WebWindowCallback connid ("SAVEFILE:" +:+ name +:+ String colon EmptyString) w)
    = Raise index_out_of_bounds.
Proof.
  intros Hname.
  pose proof (ProcessSaveFile_one_element _ _ w (split_path_name_only name Hname)) as H.
  rewrite WebWindowCallback_SAVEFILE_run. unfold bind.
  destruct (ProcessSaveFile _ w) as [[r|e] w']; cbn in H;
    [discriminate H | injection H as ->; reflexivity].
Qed.

(** C10. Saving an empty text: for SAVEFILE:foo.txt: the second getline
    extracts nothing, [split] has the name as its only element, and
    reading [split[1]] is out of bounds; the handler does not return. *)
Theorem SAVEFILE_empty_text_fails (connid : nat) (w : World) :
  split_path "foo.txt:" = ["foo.txt"] /\
  fst (WebWindowCallback connid "SAVEFILE:foo.txt:" w) = Raise index_out_of_bounds.
Proof.
  split; [reflexivity|].
  exact (WebWindowCallback_SAVEFILE_no_text connid "foo.txt" w eq_refl).
Qed.

(** C8 (as amended). A payload with no ':' that is not empty gives a
    [split] of one element, the payload itself, and ProcessSaveFile fails
    on [split[1]]; the empty payload gives an empty [split], and
    ProcessSaveFile fails on [split[0]] before any file is opened. *)
Theorem SaveFile_without_separator (payload : string) (w : World) :
  StdString.contains colon payload = false ->
  (payload <> EmptyString ->
     split_path payload = [payload] /\
     fst (ProcessSaveFile payload w) = Raise index_out_of_bounds) /\
  (payload = EmptyString ->
     split_path payload = [] /\
     ProcessSaveFile payload w = (Raise index_out_of_bounds, w)).
Proof.
  intros Hc. split.
  - intros Hne. pose proof (split_path_no_colon payload Hne Hc) as Hs.
    split; [exact Hs | exact (ProcessSaveFile_one_element _ _ w Hs)].
  - intros ->. split; reflexivity.
Qed.

End SaveFile.

(** ** The double click *)

Section DblClick.
Context `{FW : Framework}.

(** The element has text content: ProcessDblClick stops at the second
    test, with the adapter in the state GetElement left it in. *)
Lemma ProcessDblClick_FREAD (item opt : string) (w : World)
      (elem : RBrowsableElement TObject) (tree : RBrowsable) :
  GetElement (host w) item (fBrowsable (this w)) = (Some elem, tree) ->
  HasTextContent elem = true ->
  ProcessDblClick item opt w =
    (Ret ("FREAD:" +:+ GetTextContent elem), on_this (with_fBrowsable tree) w).
Proof.
  intros Helem Htext. unfold ProcessDblClick, bind, get. rewrite Helem.
  unfold modify, ret. cbn. now rewrite Htext.
Qed.

(** When the path resolves to an element with text content, the reply
    of ProcessDblClick is FREAD: followed by that text, unchanged, and
    the canvases of both lists and the active name are untouched. *)
Theorem ProcessDblClick_text (item opt : string) (w : World)
        (elem : RBrowsableElement TObject) (tree : RBrowsable) :
  GetElement (host w) item (fBrowsable (this w)) = (Some elem, tree) ->
  HasTextContent elem = true ->
  exists w',
    ProcessDblClick item opt w = (Ret ("FREAD:" +:+ GetTextContent elem), w') /\
    fCanvases (this w') = fCanvases (this w) /\
    fRCanvases (this w') = fRCanvases (this w) /\
    fActiveCanvas (this w') = fActiveCanvas (this w) /\
    fWebWindow (this w') = fWebWindow (this w) /\
    host w' = host w.
Proof.
  intros Helem Htext. rewrite (ProcessDblClick_FREAD _ _ _ _ _ Helem Htext).
  eexists. split; [reflexivity|]. cbn. auto.
Qed.

(** The same through the dispatcher, in the plain form DBLCLK:path: the
    path has at least two characters and its second one is not '['. *)
Lemma WebWindowCallback_DBLCLK_text (connid : nat) (c d : ascii) (rest : string) (w : World)
      (elem : RBrowsableElement TObject) (tree : RBrowsable) :
  d <> "["%char ->
  GetElement (host w) (String c (String d rest)) (fBrowsable (this w)) = (Some elem, tree) ->
  HasTextContent elem = true ->
  exists w',
    WebWindowCallback connid ("DBLCLK:" +:+ String c (String d rest)) w = (Ret tt, w') /\
    fSent (fWebWindow (this w')) =
      fSent (fWebWindow (this w)) ++ [(connid, "FREAD:" +:+ GetTextContent elem)] /\
    fCanvases (this w') = fCanvases (this w) /\
    fRCanvases (this w') = fRCanvases (this w).
Proof.
  intros Hd Helem Htext.
  pose proof (ProcessDblClick_FREAD _ EmptyString w elem tree Helem Htext) as E.
  unfold WebWindowCallback. spell. cbn -[ProcessDblClick].
  apply Ascii.eqb_neq in Hd. rewrite Hd. cbn -[ProcessDblClick].
  unfold bind. rewrite E. unfold Send, modify. eexists. split; [reflexivity|].
  cbn. auto.
Qed.



End DblClick.

(** ** What handling a message can and cannot do *)

Section Frame.
Context `{FW : Framework}.

Lemma map_insert_same {A B} (f : A -> B) (l : list A) (i : nat) (x y : A) :
  l !! i = Some x -> f y = f x -> map f (<[i:=y]> l) = map f l.
Proof.
  revert i; induction l as [|z l IH]; intros [|i] Hl Hf; cbn in *; try discriminate.
  - injection Hl as ->. now rewrite Hf.
  - f_equal. now apply IH.
Qed.

(** The outbox after a message. *)
Lemma WebWindowCallback_outbox (connid : nat) (arg : string) (w : World) :
  let w' := snd (WebWindowCallback connid arg w) in
  fConn (fWebWindow (this w')) = fConn (fWebWindow (this w)) /\
  fShown (fWebWindow (this w')) = fShown (fWebWindow (this w)) /\
  fUseRCanvas (this w') = fUseRCanvas (this w) /\
  fConnId (this w') = fConnId (this w) /\
  (fSent (fWebWindow (this w')) = fSent (fWebWindow (this w)) \/
   exists msg, fSent (fWebWindow (this w')) = fSent (fWebWindow (this w)) ++ [(connid, msg)]
               /\ expected_reply msg).
Proof.
  unfold_handlers. unfold GetCurrentWorkingDirectory.
  cases; cbn; repeat split; try reflexivity; try assumption;
    first [ left; reflexivity | right; eexists; split; [reflexivity | expected] ].
Qed.

(** The next-generation canvases after a message: the same titles in the
    same order, with at most one more at the end. *)
Lemma WebWindowCallback_rcanvases (connid : nat) (arg : string) (w : World) :
  let w' := snd (WebWindowCallback connid arg w) in
  map rTitle (fRCanvases (this w')) = map rTitle (fRCanvases (this w)) \/
  map rTitle (fRCanvases (this w')) =
    map rTitle (fRCanvases (this w)) ++ [rcanv_name (fRCanvases (this w))].
Proof.
  unfold_handlers. unfold GetActiveCanvas, GetActiveRCanvas.
  cases; cbn; try (left; reflexivity).
  - right. now rewrite map_app.
  - left. match goal with H : list_find _ _ = Some _ |- _ =>
            apply list_find_Some in H as (Hl & _ & _) end.
    cbn in Hl. now apply (map_insert_same rTitle _ _ _ _ Hl).
  - left. match goal with H : list_find _ _ = Some _ |- _ =>
            apply list_find_Some in H as (Hl & _ & _) end.
    cbn in Hl. now apply (map_insert_same rTitle _ _ _ _ Hl).
  - left. match goal with H : list_find _ _ = Some _ |- _ =>
            apply list_find_Some in H as (Hl & _ & _) end.
    cbn in Hl. now apply (map_insert_same rTitle _ _ _ _ Hl).
Qed.

(** X1. Whatever the message and whether its handling returns or
    raises: the connections, the number of windows started, the canvas
    mode and the recorded connection id stay as they are, and the outbox
    either stays or grows by one message, addressed to the sender and
    either empty or starting with one of the reply prefixes. *)
Theorem message_reply_discipline (connid : nat) (arg : string) (w : World) :
  let w' := snd (WebWindowCallback connid arg w) in
  fConn (fWebWindow (this w')) = fConn (fWebWindow (this w)) /\
  fShown (fWebWindow (this w')) = fShown (fWebWindow (this w)) /\
  fUseRCanvas (this w') = fUseRCanvas (this w) /\
  fConnId (this w') = fConnId (this w) /\
  (fSent (fWebWindow (this w')) = fSent (fWebWindow (this w)) \/
   exists msg, fSent (fWebWindow (this w')) = fSent (fWebWindow (this w)) ++ [(connid, msg)]
               /\ expected_reply msg).
Proof. exact (WebWindowCallback_outbox connid arg w). Qed.

(** X2. No message removes, renames or reorders a next-generation
    canvas: the titles before the message are a prefix of the titles
    after it. *)
Theorem message_keeps_rcanvases (connid : nat) (arg : string) (w : World) :
  map rTitle (fRCanvases (this w))
    `prefix_of` map rTitle (fRCanvases (this (snd (WebWindowCallback connid arg w)))).
Proof.
  destruct (WebWindowCallback_rcanvases connid arg w) as [-> | ->];
    [reflexivity | apply prefix_app_r; reflexivity].
Qed.

(** X3. QUIT_ROOT and NEWCANVAS are compared as whole messages: followed
    by any character they are ignored, nothing is sent and nothing
    changes. *)
Theorem bare_commands_are_exact (connid : nat) (c : ascii) (rest : string) (w : World) :
  WebWindowCallback connid ("QUIT_ROOT" +:+ String c rest) w = (Ret tt, w) /\
  WebWindowCallback connid ("NEWCANVAS" +:+ String c rest) w = (Ret tt, w).
Proof. split; unfold WebWindowCallback; spell; reflexivity. Qed.

(** X4. The order of the branches of the dispatcher does not matter: a
    message that satisfies the condition of one branch satisfies the
    condition of no other. *)
Theorem dispatch_order_is_irrelevant (arg : string) (i j : nat) (r r' : string -> bool) :
  recognisers !! i = Some r -> r arg = true ->
  recognisers !! j = Some r' -> j <> i -> r' arg = false.
Proof.
  intros Hi Hr Hj Hne. destruct (r' arg) eqn:E; [|reflexivity].
  exfalso. apply Hne. symmetry. exact (recognisers_exclusive arg i j r r' Hi Hj Hr E).
Qed.

End Frame.

(** ** More on the double click *)

Section DblClickMore.
Context `{FW : Framework}.

(** ProcessDblClick returns, whatever the path; it leaves the names and
    titles of the canvases, the active name, the window, the working
    directory and the host as they are. *)
Lemma ProcessDblClick_frame (item opt : string) (w : World) :
  exists reply w',
    ProcessDblClick item opt w = (Ret reply, w') /\
    map fName (fCanvases (this w')) = map fName (fCanvases (this w)) /\
    map rTitle (fRCanvases (this w')) = map rTitle (fRCanvases (this w)) /\
    fActiveCanvas (this w') = fActiveCanvas (this w) /\
    fWebWindow (this w') = fWebWindow (this w) /\
    fWorkingDirectory (this w') = fWorkingDirectory (this w) /\
    host w' = host w.
Proof.
  unfold ProcessDblClick, GetActiveCanvas, GetActiveRCanvas, bind, ret, get, modify.
  cbv zeta. cases; eexists _, _; (split; [reflexivity|]); cbn; repeat split;
    match goal with
    | H : list_find _ _ = Some _ |- _ =>
        apply list_find_Some in H as (Hl & _ & _); cbn in Hl;
        first [ now apply (map_insert_same fName _ _ _ _ Hl)
              | now apply (map_insert_same rTitle _ _ _ _ Hl) ]
    | _ => idtac
    end.
Qed.

(** X5. A double click never raises and never creates, removes or
    renames a canvas: the names of the legacy canvases, the titles of the
    next-generation ones and the active name are the same afterwards, and
    so are the window and the host. *)
Theorem ProcessDblClick_keeps_registry (item opt : string) (w : World) :
  exists reply w',
    ProcessDblClick item opt w = (Ret reply, w') /\
    map fName (fCanvases (this w')) = map fName (fCanvases (this w)) /\
    map rTitle (fRCanvases (this w')) = map rTitle (fRCanvases (this w)) /\
    fActiveCanvas (this w') = fActiveCanvas (this w) /\
    fWebWindow (this w') = fWebWindow (this w) /\
    host w' = host w.
Proof.
  destruct (ProcessDblClick_frame item opt w) as (reply & w' & E & ? & ? & ? & ? & _ & ?).
  exists reply, w'. auto 10.
Qed.

(** X6. A drawable object and an active legacy canvas: the canvas is
    emptied and holds the object itself with the options as a C string,
    the reply selects the canvas, every other legacy canvas and every
    next-generation canvas is untouched (also one with the active name as
    its title). *)
Theorem double_click_draws_on_legacy_canvas
        (item opt : string) (w : World) (elem : RBrowsableElement TObject)
        (tree : RBrowsable) (tobj : TObject) (i : nat) (canv : TCanvas) :
  GetElement (host w) item (fBrowsable (this w)) = (Some elem, tree) ->
  HasTextContent elem = false -> GetObjectToDraw elem = Some tobj ->
  GetActiveCanvas (this w) = Some (i, canv) ->
  exists w',
    ProcessDblClick item opt w = (Ret ("SLCTCANV:" +:+ fName canv), w') /\
    fCanvases (this w') !! i =
      Some {| fName := fName canv; fTitle := fTitle canv;
              fPrimitives := [(tobj, c_str opt)]; fCanvasImp := fCanvasImp canv |} /\
    (forall j, j <> i -> fCanvases (this w') !! j = fCanvases (this w) !! j) /\
    fRCanvases (this w') = fRCanvases (this w).
Proof.
  intros Helem Htext Hobj Hact. unfold GetActiveCanvas in Hact.
  unfold ProcessDblClick, GetActiveCanvas, bind, get. rewrite Helem. unfold modify, ret. cbn.
  rewrite Htext, Hobj.
  cbn [this on_this with_fBrowsable fActiveCanvas fCanvases fRCanvases].
  rewrite Hact. eexists. split; [reflexivity|]. cbn.
  apply list_find_Some in Hact as (Hl & _ & _).
  split; [|split; [|reflexivity]].
  - apply list_lookup_insert_eq. eapply lookup_lt_Some; eassumption.
  - intros j Hj. apply list_lookup_insert_ne. congruence.
Qed.

(** X7. A drawable object, no active legacy canvas and an active
    next-generation canvas: whatever the canvas held, it holds afterwards
    exactly one primitive, a clone of the object (taken out of its
    directory when it is a histogram) with the options; the legacy
    canvases and the other next-generation canvases are untouched. *)
Theorem double_click_draws_on_rcanvas
        (item opt : string) (w : World) (elem : RBrowsableElement TObject)
        (tree : RBrowsable) (tobj : TObject) (i : nat) (rcanv : RCanvas) :
  GetElement (host w) item (fBrowsable (this w)) = (Some elem, tree) ->
  HasTextContent elem = false -> GetObjectToDraw elem = Some tobj ->
  GetActiveCanvas (this w) = None ->
  GetActiveRCanvas (this w) = Some (i, rcanv) ->
  exists w',
    ProcessDblClick item opt w = (Ret ("SLCTCANV:" +:+ rTitle rcanv), w') /\
    fRCanvases (this w') !! i =
      Some {| rTitle := rTitle rcanv; rPrimitives := [(detached_clone tobj, opt)];
              rWindow := rWindow rcanv |} /\
    (forall j, j <> i -> fRCanvases (this w') !! j = fRCanvases (this w) !! j) /\
    fCanvases (this w') = fCanvases (this w).
Proof.
  intros Helem Htext Hobj Hnone Hact. unfold GetActiveCanvas in Hnone.
  unfold GetActiveRCanvas in Hact.
  unfold ProcessDblClick, GetActiveCanvas, GetActiveRCanvas, bind, get. rewrite Helem.
  unfold modify, ret. cbn.
  rewrite Htext, Hobj.
  cbn [this on_this with_fBrowsable fActiveCanvas fCanvases fRCanvases].
  rewrite Hnone, Hact. eexists. split; [reflexivity|]. cbn.
  apply list_find_Some in Hact as (Hl & _ & _).
  split; [|split; [|reflexivity]].
  - rewrite list_lookup_insert_eq by (eapply lookup_lt_Some; eassumption).
    unfold draw_on_rcanvas, detached_clone. now destruct (rPrimitives rcanv).
  - intros j Hj. apply list_lookup_insert_ne. congruence.
Qed.

(** X8. A double click in the plain form, with a path of at least two
    characters whose second one is not '[', always returns and always
    sends exactly one message to the sender: the reply of ProcessDblClick
    for the path and no options, also when that reply is empty. *)
Theorem plain_double_click_replies_once
        (connid : nat) (c d : ascii) (rest : string) (w : World) :
  d <> "["%char ->
  exists reply w',
    WebWindowCallback connid ("DBLCLK:" +:+ String c (String d rest)) w = (Ret tt, w') /\
    fst (ProcessDblClick (String c (String d rest)) EmptyString w) = Ret reply /\
    fSent (fWebWindow (this w')) = fSent (fWebWindow (this w)) ++ [(connid, reply)].
Proof.
  intros Hd. apply Ascii.eqb_neq in Hd.
  destruct (ProcessDblClick_frame (String c (String d rest)) EmptyString w)
    as (reply & w1 & E & _ & _ & _ & Hwin & _).
  unfold WebWindowCallback. spell. cbn -[ProcessDblClick]. rewrite Hd.
  cbn -[ProcessDblClick]. unfold bind. rewrite E. unfold Send, modify.
  eexists _, _. split; [reflexivity|]. cbn. now rewrite Hwin.
Qed.

(** X9. A double click in the array form whose array parses but has
    fewer than two strings raises std::out_of_range, with the state as it
    was: the path and the options are both read with at(). *)
Theorem array_double_click_needs_two_strings
        (connid : nat) (c : ascii) (rest : string) (arr : list string) (w : World) :
  FromJSON_strings (String c (String "[" rest)) = Some arr ->
  (length arr < 2)%nat ->
  WebWindowCallback connid ("DBLCLK:" +:+ String c (String "[" rest)) w
    = (Raise out_of_range, w).
Proof.
  intros Hjson Hlen. unfold WebWindowCallback. spell. cbn. unfold bind. cbn.
  rewrite Hjson. destruct arr as [|a [|b arr]]; cbn in *; try lia; reflexivity.
Qed.

(** X10. A double click in the array form with at least two strings:
    the first is the path, the second the options, the others are
    ignored; the reply of ProcessDblClick is sent only when it is not
    empty. *)
Theorem array_double_click_sends_nonempty_replies
        (connid : nat) (c : ascii) (rest item opt : string) (more : list string) (w : World) :
  FromJSON_strings (String c (String "[" rest)) = Some (item :: opt :: more) ->
  exists reply w1 w',
    ProcessDblClick item opt w = (Ret reply, w1) /\
    WebWindowCallback connid ("DBLCLK:" +:+ String c (String "[" rest)) w = (Ret tt, w') /\
    (reply = EmptyString -> w' = w1) /\
    (reply <> EmptyString ->
       this w' = with_fWebWindow
                   (with_fSent (fSent (fWebWindow (this w1)) ++ [(connid, reply)])
                               (fWebWindow (this w1))) (this w1)
       /\ host w' = host w1).
Proof.
  intros Hjson.
  destruct (ProcessDblClick_frame item opt w) as (reply & w1 & E & _).
  exists reply, w1. unfold WebWindowCallback. spell. cbn -[ProcessDblClick].
  unfold bind. cbn -[ProcessDblClick]. rewrite Hjson. cbn -[ProcessDblClick]. rewrite E.
  destruct reply as [|a reply]; cbn; eexists; (split; [reflexivity|]); (split; [reflexivity|]);
    split; intros H; try congruence; auto.
Qed.

End DblClickMore.

(** ** More on the payloads with a separator *)

Section Payloads.
Context `{FW : Framework}.

Lemma find_Some_split (c : ascii) (s : string) (i : nat) :
  StdString.find c s = Some i ->
  s = StdString.take i s +:+ String c (StdString.drop (S i) s) /\
  StdString.contains c (StdString.take i s) = false.
Proof.
  revert i; induction s as [|d s IH]; intros i H; cbn in H; [discriminate|].
  destruct (Ascii.eqb d c) eqn:E.
  - injection H as <-. apply Ascii.eqb_eq in E as ->. cbn. split; reflexivity.
  - destruct (StdString.find c s) as [k|]; [|discriminate]. injection H as <-.
    destruct (IH k eq_refl) as [Hs Hc]. split.
    + change (String d s
              = String d (StdString.take k s +:+ String c (StdString.drop (S k) s))).
      now rewrite <- Hs.
    + cbn. now rewrite E, Hc.
Qed.

Lemma append_empty (s : string) : s +:+ EmptyString = s.
Proof. induction s as [|c s IH]; [reflexivity | spell; now rewrite IH]. Qed.

Lemma find_None_clean (c : ascii) (s : string) :
  StdString.find c s = None -> StdString.contains c s = false.
Proof. apply find_contains. Qed.

(** What [split] is, by the first ':' of the payload and the first NUL
    after it. *)
Lemma split_path_cases (s : string) :
  match StdString.find colon s with
  | None => split_path s = if (StdString.size s =? 0)%nat then [] else [s]
  | Some i =>
      let u := StdString.drop (S i) s in
      match StdString.find nul u with
      | Some j => split_path s = [StdString.take i s; StdString.take j u]
      | None =>
          split_path s = if (StdString.size u =? 0)%nat then [StdString.take i s]
                         else [StdString.take i s; u]
      end
  end.
Proof.
  unfold split_path, getline, istringstream_of. cbn [unread eofbit failbit orb].
  destruct (StdString.find colon s) as [i|] eqn:Ec; cbn [unread eofbit failbit orb].
  - destruct (StdString.find nul _) as [j|]; [reflexivity|].
    destruct (StdString.size _ =? 0)%nat; reflexivity.
  - destruct (StdString.size s =? 0)%nat; reflexivity.
Qed.

(** X11. [split] never has more than two elements, and it is empty
    exactly for the empty payload. *)
Theorem split_path_shape (s : string) :
  (length (split_path s) <= 2)%nat /\ (split_path s = [] <-> s = EmptyString).
Proof.
  pose proof (split_path_cases s) as H.
  destruct (StdString.find colon s) as [i|] eqn:Ec.
  - assert (s <> EmptyString) by (intros ->; discriminate Ec).
    cbv zeta in H.
    destruct (StdString.find nul (StdString.drop (S i) s));
      [|destruct (StdString.size (StdString.drop (S i) s) =? 0)%nat];
      rewrite H; cbn [length]; (split; [lia | split; [discriminate | congruence]]).
  - destruct s as [|c s].
    + cbn. split; [lia | tauto].
    + cbn [StdString.size String.length Nat.eqb] in H. rewrite H. cbn [length].
      split; [lia | split; congruence].
Qed.

(** X12. Reading [split] back: with two elements the payload is the
    first element, a ':', the second element and then either nothing or
    a NUL and more; the first element has no ':' and the second no NUL
    in it. With one element the payload is that element, alone or
    followed by the ':'. *)
Theorem split_path_decodes (s name : string) (more : list string) :
  split_path s = name :: more ->
  StdString.contains colon name = false /\
  match more with
  | [] => s = name \/ s = name +:+ String colon EmptyString
  | text :: _ =>
      StdString.contains nul text = false /\
      exists rest, s = name +:+ String colon (text +:+ rest) /\
                   (rest = EmptyString \/ exists r, rest = String nul r)
  end.
Proof.
  intros Hs. pose proof (split_path_cases s) as H.
  destruct (StdString.find colon s) as [i|] eqn:Ec.
  - destruct (find_Some_split _ _ _ Ec) as [Es Hc]. cbv zeta in H.
    set (u := StdString.drop (S i) s) in *.
    destruct (StdString.find nul u) as [j|] eqn:En.
    + rewrite H in Hs. injection Hs as <- <-.
      destruct (find_Some_split _ _ _ En) as [Eu Hn].
      split; [exact Hc|]. split; [exact Hn|].
      exists (String nul (StdString.drop (S j) u)). split; [|right; eauto].
      now rewrite <- Eu.
    + destruct (StdString.size u =? 0)%nat eqn:Eu; rewrite H in Hs; injection Hs as <- <-.
      * split; [exact Hc|]. right. destruct u; [exact Es | discriminate Eu].
      * split; [exact Hc|]. split; [now apply find_None_clean|].
        exists EmptyString. split; [|now left].
        rewrite append_empty. exact Es.
  - destruct (StdString.size s =? 0)%nat; rewrite H in Hs; [discriminate|].
    injection Hs as <- <-. split; [now apply find_None_clean | now left].
Qed.

(** X13. The other way round: a name without ':' and a text without NUL
    that is not empty, joined by a ':', are read back as they are, later
    ':' and line breaks in the text included. *)
Theorem split_path_round_trip (name text : string) :
  StdString.contains colon name = false ->
  text <> EmptyString -> StdString.contains nul text = false ->
  split_path (name +:+ String colon text) = [name; text].
Proof. exact (split_path_name_text name text). Qed.

Lemma split_path_head (payload : string) :
  payload <> EmptyString -> exists more, split_path payload = first_field payload :: more.
Proof.
  intros Hne. pose proof (split_path_cases payload) as H. unfold first_field.
  destruct (StdString.find colon payload) as [i|].
  - cbv zeta in H.
    destruct (StdString.find nul (StdString.drop (S i) payload));
      [|destruct (StdString.size (StdString.drop (S i) payload) =? 0)%nat];
      rewrite H; eauto.
  - apply size_0 in Hne. rewrite Hne in H. rewrite H. eauto.
Qed.

(** X14. RUNMACRO: with an empty payload raises before anything is run.
    With any other payload it returns: the macro run is the one named by
    the characters before the first ':' (as a C string), whatever follows
    the ':' is ignored, and the browser is left as it is. *)
Theorem RUNMACRO_runs_the_first_field (connid : nat) (payload : string) (w : World) :
  WebWindowCallback connid "RUNMACRO:" w = (Raise index_out_of_bounds, w) /\
  (payload <> EmptyString ->
   WebWindowCallback connid ("RUNMACRO:" +:+ payload) w =
     (Ret tt, {| this := this w;
                 host := snd (ExecuteMacro (c_str (first_field payload)) (host w)) |})).
Proof.
  split; [reflexivity|]. intros Hne.
  destruct (split_path_head payload Hne) as [more Hs].
  unfold WebWindowCallback. spell. cbn -[split_path].
  unfold ProcessRunCommand, bind, vector_index, get, modify, ret. rewrite Hs. cbn.
  now destruct (ExecuteMacro _ _).
Qed.

(** The state after a save that the host lets through. *)
Lemma ProcessSaveFile_result (payload name text : string) (w : World) :
  split_path payload = [name; text] ->
  let target := ResolvePath (cwd (host w)) (c_str name) in
  CanOpenForWriting (host w) target = true ->
  ProcessSaveFile payload w =
    (Ret true, {| this := this w;
                  host := with_files (<[target := text]> (files (host w))) (host w) |}).
Proof.
  intros Hsplit target Hopen. unfold ProcessSaveFile. rewrite Hsplit.
  unfold bind, vector_index, ofstream_open, bind, get. cbn. fold target. rewrite Hopen.
  unfold modify, ret, ofstream_write, modify, on_host, with_files. cbn.
  rewrite lookup_insert_eq. cbn. now rewrite insert_insert_eq.
Qed.

(** X15. SAVEFILE:name:text, for a name without ':' or NUL and a text
    without NUL that is not empty: when the host lets the file be
    opened, the file the name resolves to holds exactly the text
    afterwards, every other file is as before and the browser is
    untouched. *)
Theorem SAVEFILE_writes_the_text (connid : nat) (name text : string) (w : World) :
  StdString.contains colon name = false -> StdString.contains nul name = false ->
  text <> EmptyString -> StdString.contains nul text = false ->
  CanOpenForWriting (host w) (ResolvePath (cwd (host w)) name) = true ->
  exists w',
    WebWindowCallback connid ("SAVEFILE:" +:+ name +:+ String colon text) w = (Ret tt, w') /\
    files (host w') !! ResolvePath (cwd (host w)) name = Some text /\
    (forall other, other <> ResolvePath (cwd (host w)) name ->
                   files (host w') !! other = files (host w) !! other) /\
    this w' = this w.
Proof. exact (WebWindowCallback_SAVEFILE connid name text w). Qed.

(** X16. Saving twice under the same name, the host letting the file be
    opened both times (before the first save and in the state the first
    save leaves): the file is truncated when it is opened, so it holds
    the second text only, and the other files are as before the first
    save. *)
Theorem SAVEFILE_overwrites (connid : nat) (name text1 text2 : string) (w : World) :
  StdString.contains colon name = false -> StdString.contains nul name = false ->
  text1 <> EmptyString -> StdString.contains nul text1 = false ->
  text2 <> EmptyString -> StdString.contains nul text2 = false ->
  let target := ResolvePath (cwd (host w)) name in
  CanOpenForWriting (host w) target = true ->
  CanOpenForWriting (with_files (<[target := text1]> (files (host w))) (host w)) target
    = true ->
  exists w1 w2,
    WebWindowCallback connid ("SAVEFILE:" +:+ name +:+ String colon text1) w = (Ret tt, w1) /\
    WebWindowCallback connid ("SAVEFILE:" +:+ name +:+ String colon text2) w1 = (Ret tt, w2) /\
    files (host w2) !! ResolvePath (cwd (host w)) name = Some text2 /\
    (forall other, other <> ResolvePath (cwd (host w)) name ->
                   files (host w2) !! other = files (host w) !! other) /\
    this w2 = this w.
Proof.
  intros Hname Hclean Hne1 Hnul1 Hne2 Hnul2 target0 Hopen1 Hopen2. subst target0.
  pose proof (fun w => ProcessSaveFile_result _ _ _ w
                         (split_path_name_text name text1 Hname Hne1 Hnul1)) as S1.
  pose proof (fun w => ProcessSaveFile_result _ _ _ w
                         (split_path_name_text name text2 Hname Hne2 Hnul2)) as S2.
  rewrite (c_str_clean _ Hclean) in S1, S2.
  set (target := ResolvePath (cwd (host w)) name) in *.
  set (w1 := {| this := this w;
                host := with_files (<[target := text1]> (files (host w))) (host w) |}).
  exists w1, {| this := this w1;
                host := with_files (<[target := text2]> (files (host w1))) (host w1) |}.
  split; [|split].
  - rewrite WebWindowCallback_SAVEFILE_run. unfold bind. now rewrite (S1 w Hopen1).
  - rewrite WebWindowCallback_SAVEFILE_run. unfold bind. now rewrite (S2 w1 Hopen2).
  - cbn. split; [apply lookup_insert_eq|]. split; [|reflexivity].
    intros other Hother. now rewrite !lookup_insert_ne by congruence.
Qed.

(** X17. When the host refuses to open the file, SAVEFILE:name:text
    returns all the same, with no file and nothing else changed: the
    failure of the stream is not looked at. *)
Theorem SAVEFILE_unwritable_is_silent (connid : nat) (name text : string) (w : World) :
  StdString.contains colon name = false ->
  text <> EmptyString -> StdString.contains nul text = false ->
  CanOpenForWriting (host w) (ResolvePath (cwd (host w)) (c_str name)) = false ->
  WebWindowCallback connid ("SAVEFILE:" +:+ name +:+ String colon text) w = (Ret tt, w).
Proof.
  intros Hname Hne Hnul Hopen. rewrite WebWindowCallback_SAVEFILE_run.
  unfold ProcessSaveFile. rewrite (split_path_name_text name text Hname Hne Hnul).
  unfold bind, vector_index, ofstream_open, bind, get. cbn. now rewrite Hopen.
Qed.

(** X18. A browse request is answered exactly when there is a request
    to process: the empty payload stands for the first 100 entries of
    [/], any other payload for what it parses to; the adapter processes
    the request and one message, BREPL: followed by the reply as JSON, is
    sent to the sender; canvases and host are untouched. *)
Theorem BRREQ_is_answered (connid : nat) (json : string) (req : RBrowserRequest) (w : World) :
  (json = EmptyString /\ req = {| path := "/"; first := 0; number := 100 |}) \/
  (json <> EmptyString /\ FromJSON_RBrowserRequest json = Some req) ->
  let processed := ProcessRequest (host w) req (fBrowsable (this w)) in
  exists w',
    WebWindowCallback connid ("BRREQ:" +:+ json) w = (Ret tt, w') /\
    fSent (fWebWindow (this w')) =
      fSent (fWebWindow (this w))
        ++ [(connid, "BREPL:" +:+ c_str (ToJSON_RBrowserReplyNew (fst processed)))] /\
    fBrowsable (this w') = snd processed /\
    fCanvases (this w') = fCanvases (this w) /\
    fRCanvases (this w') = fRCanvases (this w) /\
    host w' = host w.
Proof.
  intros H processed. subst processed.
  unfold WebWindowCallback. spell. cbn. unfold ProcessBrowserRequest, bind, get, modify, ret.
  destruct H as [[-> ->] | [Hne Hjson]].
  - cbn. destruct (ProcessRequest _ _ _) as [reply tree]. cbn.
    eexists. split; [reflexivity|]. cbn. auto.
  - apply size_0 in Hne. rewrite Hne, Hjson.
    destruct (ProcessRequest _ _ _) as [reply tree]. cbn.
    eexists. split; [reflexivity|]. cbn. auto.
Qed.

End Payloads.

(** ** More on the registry and the window *)

Section RegistryMore.
Context `{FW : Framework}.

(** X19. NEWCANVAS in legacy mode returns: an empty canvas with the
    generated name is appended and its name made the active one, the
    next-generation list is untouched and one CANVS: message with the
    (kind, url, name) triple goes to the sender. The canvas then found
    as the active one is the new canvas when no older canvas has its
    name, and otherwise the first older canvas with that name. *)
Theorem NEWCANVAS_legacy (connid : nat) (w : World) :
  fUseRCanvas (this w) = false ->
  exists canv w',
    WebWindowCallback connid "NEWCANVAS" w = (Ret tt, w') /\
    fCanvases (this w') = fCanvases (this w) ++ [canv] /\
    fName canv = webcanv_name (fCanvases (this w)) /\ fPrimitives canv = [] /\
    fActiveCanvas (this w') = fName canv /\
    fRCanvases (this w') = fRCanvases (this w) /\
    fSent (fWebWindow (this w')) =
      fSent (fWebWindow (this w))
        ++ [(connid, "CANVS:" +:+ c_str (ToJSON_strings ["root6"; GetCanvasUrl canv; fName canv]))] /\
    (Forall (fun c => fName c <> fName canv) (fCanvases (this w)) ->
       GetActiveCanvas (this w') = Some (length (fCanvases (this w)), canv)) /\
    (forall i old,
       list_find (fun c => fName canv = fName c) (fCanvases (this w)) = Some (i, old) ->
       GetActiveCanvas (this w') = Some (i, old)).
Proof.
  intros Hmode. unfold WebWindowCallback. cbn. unfold bind, get. rewrite Hmode.
  unfold AddCanvas, bind, get, modify, ret, Send, modify. cbn.
  eexists _, _. split; [reflexivity|]. cbn. repeat split.
  - intros Hfresh. unfold GetActiveCanvas. cbn. apply list_find_Some. split; [|split].
    + now rewrite list_lookup_middle.
    + reflexivity.
    + intros j y Hj Hlt E. rewrite lookup_app_l in Hj by lia.
      rewrite Forall_forall in Hfresh.
      apply (Hfresh y); [eapply list_elem_of_lookup_2; eassumption | cbn; congruence].
  - intros i old Hold. unfold GetActiveCanvas. cbn. now apply list_find_app_l.
Qed.

(** X20. In legacy mode, NEWCANVAS followed by CLOSE_CANVAS of the name
    just generated gives back the list of legacy canvases there was,
    when no older canvas had that name; the active name is then empty. *)
Theorem create_then_close_restores (connid : nat) (w : World) :
  fUseRCanvas (this w) = false ->
  Forall (fun c => fName c <> webcanv_name (fCanvases (this w))) (fCanvases (this w)) ->
  exists w1 w2,
    WebWindowCallback connid "NEWCANVAS" w = (Ret tt, w1) /\
    WebWindowCallback connid ("CLOSE_CANVAS:" +:+ webcanv_name (fCanvases (this w))) w1
      = (Ret tt, w2) /\
    fCanvases (this w2) = fCanvases (this w) /\
    fRCanvases (this w2) = fRCanvases (this w) /\
    fActiveCanvas (this w2) = EmptyString.
Proof.
  intros Hmode Hfresh.
  set (name := webcanv_name (fCanvases (this w))) in *.
  assert (exists w1, WebWindowCallback connid "NEWCANVAS" w = (Ret tt, w1) /\
            fCanvases (this w1) = fCanvases (this w)
              ++ [{| fName := name; fTitle := name; fPrimitives := [];
                     fCanvasImp := windows (host w) |}] /\
            fRCanvases (this w1) = fRCanvases (this w) /\
            fActiveCanvas (this w1) = name) as (w1 & E1 & Hl & Hr & Ha).
  { unfold WebWindowCallback. cbn. unfold bind, get. rewrite Hmode.
    unfold AddCanvas, bind, get, modify, ret, Send, modify. cbn.
    eexists. split; [reflexivity|]. cbn. auto. }
  destruct (CloseCanvas_spec name w1) as (w2 & E2 & _ & Hr2 & Ha2 & _).
  exists w1, w2. split; [exact E1|].
  split; [rewrite WebWindowCallback_CLOSE_CANVAS; exact E2|].
  pose proof (CloseCanvas_erases_first name w1 (fCanvases (this w)) [] _ Hl eq_refl Hfresh)
    as Hc.
  rewrite E2 in Hc. cbn in Hc. rewrite app_nil_r in Hc.
  split; [exact Hc|]. split; [congruence|].
  rewrite Ha2, Ha. now rewrite String.eqb_refl.
Qed.

(** X21. CLOSE_CANVAS:name with several legacy canvases of that name
    erases the first of them only: the canvases before it and all those
    after it, namesakes included, stay in order. *)
Theorem CLOSE_CANVAS_erases_the_first_namesake
        (connid : nat) (name : string) (w : World)
        (before after : list TCanvas) (canv : TCanvas) :
  fCanvases (this w) = before ++ canv :: after ->
  fName canv = name ->
  Forall (fun c => fName c <> name) before ->
  exists w',
    WebWindowCallback connid ("CLOSE_CANVAS:" +:+ name) w = (Ret tt, w') /\
    fCanvases (this w') = before ++ after.
Proof.
  intros Hl Hname Hbefore. rewrite WebWindowCallback_CLOSE_CANVAS.
  pose proof (CloseCanvas_erases_first name w before after canv Hl Hname Hbefore) as Hc.
  destruct (CloseCanvas_spec name w) as (w' & E & _). rewrite E in Hc.
  exists w'. split; [exact E | exact Hc].
Qed.

(** X22. CLOSE_CANVAS of a name that no legacy canvas has and that is
    not the active name changes nothing at all. *)
Theorem CLOSE_CANVAS_unknown_is_ignored (connid : nat) (name : string) (w : World) :
  Forall (fun c => fName c <> name) (fCanvases (this w)) ->
  fActiveCanvas (this w) <> name ->
  WebWindowCallback connid ("CLOSE_CANVAS:" +:+ name) w = (Ret tt, w).
Proof.
  intros Hall Hact. rewrite WebWindowCallback_CLOSE_CANVAS.
  unfold CloseCanvas, bind, get.
  assert (list_find (fun c => name = fName c) (fCanvases (this w)) = None) as ->.
  { apply list_find_None. eapply Forall_impl; [exact Hall|]. cbn. congruence. }
  unfold ret. apply String.eqb_neq in Hact. now rewrite Hact.
Qed.

(** X23. After CLOSE_CANVAS:name the active name is not that name,
    whether a canvas was erased or not (the empty name apart). *)
Theorem closed_name_is_not_active (connid : nat) (name : string) (w : World) :
  name <> EmptyString ->
  fActiveCanvas (this (snd (WebWindowCallback connid ("CLOSE_CANVAS:" +:+ name) w))) <> name.
Proof.
  intros Hne. rewrite WebWindowCallback_CLOSE_CANVAS.
  destruct (CloseCanvas_spec name w) as (w' & E & _ & _ & Ha & _).
  rewrite E. cbn [snd]. rewrite Ha.
  destruct (String.eqb (fActiveCanvas (this w)) name) eqn:Eact; [congruence|].
  now apply String.eqb_neq.
Qed.

(** Show returns, and only the number of windows started can change. *)
Lemma Show_frame (always : bool) (w : World) :
  exists w',
    Show always w = (Ret tt, w') /\
    fSent (fWebWindow (this w')) = fSent (fWebWindow (this w)) /\
    fConn (fWebWindow (this w')) = fConn (fWebWindow (this w)) /\
    fCanvases (this w') = fCanvases (this w) /\
    fRCanvases (this w') = fRCanvases (this w) /\
    fActiveCanvas (this w') = fActiveCanvas (this w) /\
    host w' = host w /\
    fShown (fWebWindow (this w')) =
      (if (NumConnections w =? 0)%nat || always then S (fShown (fWebWindow (this w)))
       else fShown (fWebWindow (this w))).
Proof.
  unfold Show, bind, get.
  destruct ((NumConnections w =? 0)%nat || always).
  - eexists. split; [reflexivity|]. cbn. auto 10.
  - rewrite reload_from_skips. eexists. split; [reflexivity|]. auto 10.
Qed.

(** X24. Show never sends a message, never raises and never touches a
    connection, a canvas, the active name or the host, forced or not; it
    starts a window exactly when there is no connection or it is forced
    to. *)
Theorem Show_never_sends (always : bool) (w : World) :
  exists w',
    Show always w = (Ret tt, w') /\
    fSent (fWebWindow (this w')) = fSent (fWebWindow (this w)) /\
    fConn (fWebWindow (this w')) = fConn (fWebWindow (this w)) /\
    fCanvases (this w') = fCanvases (this w) /\
    fRCanvases (this w') = fRCanvases (this w) /\
    fActiveCanvas (this w') = fActiveCanvas (this w) /\
    host w' = host w /\
    fShown (fWebWindow (this w')) =
      (if (NumConnections w =? 0)%nat || always then S (fShown (fWebWindow (this w)))
       else fShown (fWebWindow (this w))).
Proof. exact (Show_frame always w). Qed.

Lemma map_const_replicate {A B} (c : B) (l : list A) :
  map (fun _ => c) l = replicate (length l) c.
Proof. induction l as [|x l IH]; cbn; [reflexivity | now rewrite IH]. Qed.

(** X26. The message a new connection gets lists every open canvas
    once: a triple per canvas, the legacy ones first with the kind root6
    and their names, then the next-generation ones with the kind root7
    and their titles, each in the order of its list; the connection id
    is recorded. *)
Theorem connection_gets_the_listing (connid : nat) (w : World) :
  let b := this w in
  exists w',
    on_connect connid w = (Ret tt, w') /\
    fConnId (this w') = connid /\
    fConn (fWebWindow (this w')) = fConn (fWebWindow b) ++ [connid] /\
    fSent (fWebWindow (this w')) =
      fSent (fWebWindow b) ++ [(connid, "INMSG:" +:+ c_str (ToJSON_table (init_listing b)))] /\
    Forall (fun triple => length triple = 3%nat) (init_listing b) /\
    map (fun triple => triple !! 0%nat) (init_listing b) =
      replicate (length (fCanvases b)) (Some "root6")
        ++ replicate (length (fRCanvases b)) (Some "root7") /\
    map (fun triple => triple !! 2%nat) (init_listing b) =
      map Some (map fName (fCanvases b) ++ map rTitle (fRCanvases b)).
Proof.
  intros b. eexists. split; [reflexivity|]. cbn.
  split; [reflexivity|]. split; [reflexivity|]. split; [reflexivity|].
  unfold init_listing. split; [|split].
  - apply Forall_app. split; apply Forall_forall; intros t Ht;
      apply list_elem_of_In, in_map_iff in Ht as (c & <- & _); reflexivity.
  - rewrite map_app, !map_map. cbn. now rewrite !map_const_replicate.
  - rewrite !map_app, !map_map. reflexivity.
Qed.

(** X27. Two legacy lists get the same generated name exactly when they
    have the same length (below 2^31 - 1 canvases): the name tells the
    length of the list at creation time and nothing else. *)
Theorem webcanv_name_tells_the_length (l1 l2 : list TCanvas) :
  vector_size l1 + 1 < 2 ^ 31 -> vector_size l2 + 1 < 2 ^ 31 ->
  webcanv_name l1 = webcanv_name l2 <-> length l1 = length l2.
Proof.
  intros H1 H2. rewrite !webcanv_name_small by assumption. unfold vector_size. split.
  - intros E. apply (inj (String.app "webcanv")) in E. apply (inj pretty) in E. lia.
  - intros ->. reflexivity.
Qed.

(** X30. NEWCANVAS in RCanvas mode returns: an empty canvas titled with
    the generated name is appended to the next-generation list and its
    title made the active name, the legacy list is untouched, and one
    CANVS: message goes to the sender with the kind root7, the address of
    the canvas window between [../] and [/], and the title. *)
Theorem NEWCANVAS_nextgen (connid : nat) (w : World) :
  fUseRCanvas (this w) = true ->
  exists canv w',
    WebWindowCallback connid "NEWCANVAS" w = (Ret tt, w') /\
    fRCanvases (this w') = fRCanvases (this w) ++ [canv] /\
    rTitle canv = rcanv_name (fRCanvases (this w)) /\ rPrimitives canv = [] /\
    fActiveCanvas (this w') = rTitle canv /\
    fCanvases (this w') = fCanvases (this w) /\
    fSent (fWebWindow (this w')) =
      fSent (fWebWindow (this w))
        ++ [(connid, "CANVS:" +:+ c_str (ToJSON_strings
               ["root7"; "../" +:+ GetWindowAddr (rWindow canv) +:+ "/"; rTitle canv]))].
Proof.
  intros Hmode. unfold WebWindowCallback. cbn. unfold bind, get. rewrite Hmode.
  unfold AddRCanvas, bind, get, modify, ret, Send, modify. cbn.
  eexists _, _. split; [reflexivity|]. cbn. repeat split.
Qed.

End RegistryMore.

(** ** What holds in every state of a session *)

Section Invariants.
Context `{FW : Framework}.

Lemma names_from_snoc (prefix : string) (next : Z) (n : nat) :
  names_from prefix next (S n)
  = names_from prefix next n ++ [prefix +:+ pretty (next + Z.of_nat n)].
Proof.
  revert next; induction n as [|n IH]; intros next.
  - cbn. now rewrite Z.add_0_r.
  - change (names_from prefix next (S (S n)))
      with ((prefix +:+ pretty next) :: names_from prefix (next + 1) (S n)).
    change (names_from prefix next (S n))
      with ((prefix +:+ pretty next) :: names_from prefix (next + 1) n).
    rewrite IH. cbn [app].
    replace (next + 1 + Z.of_nat n) with (next + Z.of_nat (S n)) by lia. reflexivity.
Qed.

(** One step of the session keeps the titles in sequence. *)
Lemma titles_step (l l' : list RCanvas) :
  map rTitle l' = map rTitle l \/ map rTitle l' = map rTitle l ++ [rcanv_name l] ->
  (vector_size l < 2 ^ 64 -> map rTitle l = names_from "rcanv" 1 (length l)) ->
  vector_size l' < 2 ^ 64 ->
  map rTitle l' = names_from "rcanv" 1 (length l').
Proof.
  unfold vector_size. intros [E | E] IH Hsize.
  - assert (length l' = length l) as Hlen
        by (apply (f_equal (@length string)) in E; now rewrite !length_map in E).
    rewrite E, Hlen. apply IH. lia.
  - assert (length l' = S (length l)) as Hlen.
    { apply (f_equal (@length string)) in E.
      rewrite length_app, !length_map in E. cbn in E. lia. }
    rewrite E, Hlen, names_from_snoc, IH by lia.
    rewrite rcanv_name_small by (unfold vector_size; lia).
    unfold vector_size.
    replace (1 + Z.of_nat (length l)) with (Z.of_nat (length l) + 1) by lia. reflexivity.
Qed.

Lemma RBrowser_new_start (use_rcanvas : bool) (h : Host) :
  let w := snd (RBrowser_new use_rcanvas h) in
  fSent (fWebWindow (this w)) = [] /\
  (map rTitle (fRCanvases (this w)) = [] \/
   map rTitle (fRCanvases (this w)) = [] ++ [rcanv_name []]).
Proof. destruct use_rcanvas; cbn; auto. Qed.

(** X28. In every state a session reaches, the titles of the
    next-generation canvases are rcanv1, rcanv2, ... in the order of the
    list (as long as there are fewer than 2^64 of them): no such canvas
    is ever removed or renamed, so their titles are pairwise distinct. *)
Theorem reachable_rcanvas_titles (w : World) :
  reachable w ->
  vector_size (fRCanvases (this w)) < 2 ^ 64 ->
  map rTitle (fRCanvases (this w)) = names_from "rcanv" 1 (length (fRCanvases (this w))) /\
  NoDup (map rTitle (fRCanvases (this w))).
Proof.
  intros Hreach Hsize.
  enough (map rTitle (fRCanvases (this w))
          = names_from "rcanv" 1 (length (fRCanvases (this w)))) as E
      by (split; [exact E | rewrite E; apply names_from_NoDup]).
  revert Hsize. induction Hreach as
      [use h w Hnew | connid w w' _ IH _ Hstep | connid arg w w' _ IH Hstep
      | always w w' _ IH Hstep | w w' _ IH Hstep]; intros Hsize.
  - pose proof (RBrowser_new_start use h) as [_ H]. rewrite Hnew in H. cbn [snd] in H.
    apply (titles_step [] _ H); [reflexivity | exact Hsize].
  - injection Hstep as <-. exact (IH Hsize).
  - pose proof (WebWindowCallback_rcanvases connid arg w) as H.
    rewrite Hstep in H. exact (titles_step _ _ H IH Hsize).
  - destruct (Show_frame always w) as (w1 & E & _ & _ & _ & Hr & _).
    rewrite E in Hstep. injection Hstep as <-. rewrite Hr in *. exact (IH Hsize).
  - injection Hstep as <-. exact (IH Hsize).
Qed.

(** X29. In every state a session reaches, every message sent so far is
    empty or starts with one of BREPL:, CANVS:, FREAD:, SLCTCANV:,
    GETWORKDIR: and INMSG:. *)
Theorem reachable_replies_are_expected (w : World) :
  reachable w ->
  Forall (fun m => expected_reply (snd m)) (fSent (fWebWindow (this w))).
Proof.
  induction 1 as
      [use h w Hnew | connid w w' _ IH _ Hstep | connid arg w w' _ IH Hstep
      | always w w' _ IH Hstep | w w' _ IH Hstep].
  - pose proof (RBrowser_new_start use h) as [H _]. rewrite Hnew in H. cbn [snd] in H.
    rewrite H. constructor.
  - injection Hstep as <-. cbn. apply Forall_app. split; [exact IH|].
    constructor; [|constructor]. right. exists "INMSG:". eexists.
    split; [set_solver | reflexivity].
  - pose proof (WebWindowCallback_outbox connid arg w) as (_ & _ & _ & _ & H).
    rewrite Hstep in H. cbn [snd] in H. destruct H as [-> | (msg & -> & Hmsg)]; [exact IH|].
    apply Forall_app. split; [exact IH|]. constructor; [exact Hmsg | constructor].
  - destruct (Show_frame always w) as (w1 & E & Hs & _).
    rewrite E in Hstep. injection Hstep as <-. now rewrite Hs.
  - injection Hstep as <-. exact IH.
Qed.

End Invariants.

(** ** Sessions in the small framework *)

Import Demo.

Section Sessions.

Lemma receive_reachable (connid : nat) (msgs : list string) (w w' : World) :
  reachable w -> receive connid msgs w = (Ret tt, w') -> reachable w'.
Proof.
  revert w; induction msgs as [|arg msgs IH]; intros w Hw Hrun.
  - cbn in Hrun. unfold ret in Hrun. congruence.
  - cbn [receive] in Hrun. unfold bind in Hrun.
    destruct (WebWindowCallback connid arg w) as [[[]|e] w1] eqn:E; [|discriminate].
    eapply IH; [|exact Hrun]. eapply reach_message; eassumption.
Qed.

Lemma legacy0_reachable : reachable legacy0.
Proof. apply (reach_new false host0). vm_compute. reflexivity. Qed.

Lemma collided_reachable : reachable collided.
Proof.
  apply (receive_reachable 1 ["NEWCANVAS"; "CLOSE_CANVAS:webcanv1"; "NEWCANVAS"] legacy0);
    [exact legacy0_reachable | vm_compute; reflexivity].
Qed.

(** With the connection 7 open, Show sends nothing more. *)
Lemma Show_reload_witness :
  NumConnections connected0 <> 0%nat /\ Show false connected0 = (Ret tt, connected0).
Proof.
  split; [vm_compute; discriminate|].
  apply Show_reload_sends_nothing. vm_compute. discriminate.
Defined.

(** The listing went out once, when the connection was accepted, and not
    again on Show. *)
Example Show_sends_no_listing :
  fSent (fWebWindow (this (snd (Show false connected0)))) = [(7%nat, init_msg (this legacy0))].
Proof. vm_compute. reflexivity. Qed.

(** The next-generation canvas rcanv1 is still there after it was closed. *)
Example close_rcanv1_stays :
  let w := snd (WebWindowCallback 1 "CLOSE_CANVAS:rcanv1" nextgen0) in
  map rTitle (fRCanvases (this nextgen0)) = ["rcanv1"] /\
  map rTitle (fRCanvases (this w)) = ["rcanv1"] /\
  fActiveCanvas (this w) = EmptyString.
Proof. vm_compute. auto. Qed.

(** While the legacy canvas webcanv1 goes. *)
Example close_webcanv1_goes :
  let w := snd (WebWindowCallback 1 "CLOSE_CANVAS:webcanv1" legacy0) in
  map fName (fCanvases (this legacy0)) = ["webcanv1"] /\
  fCanvases (this w) = [] /\ fActiveCanvas (this w) = EmptyString.
Proof. vm_compute. auto. Qed.

(** C4, the claim as stated fails: webcanv2 is created, webcanv1 closed,
    and the next canvas is webcanv2 again. *)
Lemma name_reused_after_close :
  created_names [Create; Close "webcanv1"; Create] legacy0 = ["webcanv2"; "webcanv2"] /\
  ~ (forall ops : list registry_op, NoDup (created_names ops legacy0)).
Proof.
  split; [vm_compute; reflexivity|].
  intros H. specialize (H [Create; Close "webcanv1"; Create]).
  vm_compute in H. apply NoDup_cons in H as [Hnotin _].
  apply Hnotin. constructor.
Qed.

(** Three canvases created in a row after webcanv1. *)
Lemma generated_canvas_names_witness :
  created_names (replicate 3 Create) legacy0 = ["webcanv2"; "webcanv3"; "webcanv4"] /\
  NoDup (created_names (replicate 3 Create) legacy0).
Proof.
  split; [vm_compute; reflexivity|].
  apply (generated_canvas_names legacy0 3); vm_compute; reflexivity.
Defined.

(** C5, the claim as stated fails: in a state the session reaches, two
    canvases carry the active name. *)
Lemma two_canvases_carry_the_active_name :
  reachable collided /\ active_canvases (this collided) = 2%nat /\
  ~ (forall w : World, reachable w -> (active_canvases (this w) <= 1)%nat).
Proof.
  split; [exact collided_reachable|]. split; [vm_compute; reflexivity|].
  intros H. specialize (H collided collided_reachable).
  vm_compute in H. lia.
Qed.

(** With two canvases named webcanv2 and that name active, the older one
    is found; after SELECT_CANVAS:nosuch no canvas is found. *)
Lemma active_canvas_lookup_witness :
  GetActiveCanvas (this collided)
  = Some (0%nat, {| fName := "webcanv2"; fTitle := "webcanv2"; fPrimitives := [];
                    fCanvasImp := 2 |}) /\
  active_canvases (this dangling) = 0%nat /\
  GetActiveCanvas (this dangling) = None /\ GetActiveRCanvas (this dangling) = None.
Proof.
  split.
  - destruct (active_canvas_lookup collided) as (Hfound & _).
    apply Hfound. split; [vm_compute; reflexivity|]. split; [vm_compute; reflexivity|].
    intros j c Hlt. lia.
  - split; [vm_compute; reflexivity|].
    destruct (active_canvas_lookup dangling) as (_ & _ & _ & _ & _ & _ & H).
    destruct H as (Hc & Hr & _); [vm_compute; reflexivity|]. exact (conj Hc Hr).
Defined.

(** C6, the claim as stated fails: the reply to GETWORKDIR: after
    CHDIR:/tmp is not the text with the brace right before the quote. *)
Lemma workdir_reply_spacing :
  last (fSent (fWebWindow (this (snd (receive 1 ["CHDIR:/tmp"; "GETWORKDIR:"] legacy0)))))
    = Some (1%nat, workdir_reply "/tmp") /\
  workdir_reply "/tmp" <> compact_workdir_reply "/tmp".
Proof. split; [vm_compute; reflexivity | vm_compute; discriminate]. Qed.

(** C7, the claim as stated fails: the message DBLCLK: does not have 8
    characters. *)
Lemma DBLCLK_is_not_eight_characters :
  StdString.size "DBLCLK:" = 7%nat /\ StdString.size "DBLCLK:" <> 8%nat.
Proof. split; [reflexivity | vm_compute; discriminate]. Qed.

(** C8, the claim as stated fails: the empty payload has no ':' and its
    [split] has no element. *)
Lemma empty_payload_splits_to_nothing :
  StdString.contains colon EmptyString = false /\ split_path EmptyString = [] /\
  ~ (forall payload : string,
       StdString.contains colon payload = false -> length (split_path payload) = 1%nat).
Proof.
  split; [reflexivity|]. split; [reflexivity|].
  intros H. specialize (H EmptyString eq_refl). discriminate H.
Qed.

(** The payload foo: one element, and the read of the second fails. *)
Lemma SaveFile_without_separator_witness :
  StdString.contains colon "foo" = false /\
  split_path "foo" = ["foo"] /\
  fst (ProcessSaveFile "foo" legacy0) = Raise index_out_of_bounds.
Proof.
  split; [reflexivity|].
  destruct (SaveFile_without_separator "foo" legacy0) as [H _]; [reflexivity|].
  apply H. discriminate.
Defined.

(** A double click on /readme.txt, a file that holds hello. *)
Lemma ProcessDblClick_text_witness :
  fst (ProcessDblClick "/readme.txt" EmptyString legacy0) = Ret "FREAD:hello".
Proof.
  destruct (ProcessDblClick_text "/readme.txt" EmptyString legacy0
              {| HasTextContent := true; GetTextContent := "hello"; GetObjectToDraw := None |}
              "/home") as (w' & E & _).
  - vm_compute. reflexivity.
  - reflexivity.
  - rewrite E. reflexivity.
Defined.



(** SAVEFILE:foo.txt:hello leaves a file foo.txt in the current directory
    that holds hello. *)
Example SAVEFILE_foo_hello :
  let '(r, w) := WebWindowCallback 1 "SAVEFILE:foo.txt:hello" legacy0 in
  r = Ret tt /\ files (host w) !! "/home/foo.txt" = Some "hello".
Proof. vm_compute. auto. Qed.

(** A text with a NUL in it is saved up to the NUL. *)
Example SAVEFILE_cut_at_NUL :
  let '(r, w) := WebWindowCallback 1 ("SAVEFILE:foo.txt:a" +:+ String nul "b") legacy0 in
  r = Ret tt /\ files (host w) !! "/home/foo.txt" = Some "a".
Proof. vm_compute. auto. Qed.

End Sessions.

(** ** More sessions in the small frameworks *)

Section MoreSessions.

(** A message for CHDIR: is a message for no other branch. *)
Lemma dispatch_order_witness :
  StdString.compare0 "CHDIR:/tmp" 13 "CLOSE_CANVAS:" = false.
Proof.
  apply (dispatch_order_is_irrelevant "CHDIR:/tmp" 9 7
           (fun arg => StdString.compare0 arg 6 "CHDIR:")
           (fun arg => StdString.compare0 arg 13 "CLOSE_CANVAS:"));
    [reflexivity | reflexivity | reflexivity | discriminate].
Defined.

(** The object hist is drawn on webcanv1. *)
Lemma draws_on_legacy_witness :
  fst (ProcessDblClick "/hist" "colz" legacy0) = Ret "SLCTCANV:webcanv1".
Proof.
  destruct (double_click_draws_on_legacy_canvas "/hist" "colz" legacy0
              {| HasTextContent := false; GetTextContent := EmptyString;
                 GetObjectToDraw := Some "hist" |}
              "/home" "hist" 0
              {| fName := "webcanv1"; fTitle := "webcanv1"; fPrimitives := [];
                 fCanvasImp := 1 |})
    as (w' & E & _); [vm_compute; reflexivity | reflexivity | reflexivity
                     | vm_compute; reflexivity |].
  exact (f_equal fst E).
Defined.

(** The object hist is drawn on rcanv1. *)
Lemma draws_on_rcanvas_witness :
  fst (ProcessDblClick "/hist" "colz" nextgen0) = Ret "SLCTCANV:rcanv1".
Proof.
  destruct (double_click_draws_on_rcanvas "/hist" "colz" nextgen0
              {| HasTextContent := false; GetTextContent := EmptyString;
                 GetObjectToDraw := Some "hist" |}
              "/home" "hist" 0
              {| rTitle := "rcanv1"; rPrimitives := []; rWindow := 1 |})
    as (w' & E & _); [vm_compute; reflexivity | reflexivity | reflexivity
                     | vm_compute; reflexivity | vm_compute; reflexivity |].
  exact (f_equal fst E).
Defined.

(** A double click on /readme.txt is answered. *)
Lemma plain_double_click_witness :
  fst (WebWindowCallback 1 "DBLCLK:/readme.txt" legacy0) = Ret tt.
Proof.
  destruct (plain_double_click_replies_once 1 "/" "r" "eadme.txt" legacy0)
    as (reply & w' & E & _); [discriminate|].
  exact (f_equal fst E).
Defined.

(** An array with the path only. *)
Lemma array_of_one_witness :
  @WebWindowCallback Reader.framework 1 (Reader.dblclk1 "/hist") Reader.legacy
  = (Raise out_of_range, Reader.legacy).
Proof.
  apply (@array_double_click_needs_two_strings Reader.framework 1 " "
           (String quote ("/hist" +:+ String quote "]")) ["/hist"] Reader.legacy);
    [vm_compute; reflexivity | cbn; lia].
Defined.

(** An array with the path and the options. *)
Lemma array_of_two_witness :
  fst (@WebWindowCallback Reader.framework 1 (Reader.dblclk2 "/hist" "colz") Reader.legacy)
  = Ret tt.
Proof.
  destruct (@array_double_click_sends_nonempty_replies Reader.framework 1 " "
              (String quote ("/hist" +:+ String quote "," +:+ String quote "colz"
                 +:+ String quote "]"))
              "/hist" "colz" [] Reader.legacy)
    as (reply & w1 & w' & _ & E & _); [vm_compute; reflexivity|].
  exact (f_equal fst E).
Defined.

Lemma split_path_decodes_witness :
  StdString.contains colon "foo.txt" = false /\ StdString.contains nul "hello" = false.
Proof.
  destruct (split_path_decodes "foo.txt:hello" "foo.txt" ["hello"] eq_refl) as (H1 & H2 & _).
  exact (conj H1 H2).
Defined.

Lemma split_path_round_trip_witness : split_path "foo.txt:a:b" = ["foo.txt"; "a:b"].
Proof. apply (split_path_round_trip "foo.txt" "a:b"); [reflexivity | discriminate | reflexivity]. Defined.

Lemma RUNMACRO_witness :
  WebWindowCallback 1 ("RUNMACRO:" +:+ "macro.C:ignored") legacy0 =
    (Ret tt, {| this := this legacy0;
                host := snd (ExecuteMacro (c_str (first_field "macro.C:ignored"))
                                          (host legacy0)) |}).
Proof.
  destruct (RUNMACRO_runs_the_first_field 1 "macro.C:ignored" legacy0) as [_ H].
  apply H. discriminate.
Defined.

Lemma SAVEFILE_writes_witness :
  exists w',
    WebWindowCallback 1 "SAVEFILE:foo.txt:hello" legacy0 = (Ret tt, w') /\
    files (host w') !! "/home/foo.txt" = Some "hello".
Proof.
  destruct (SAVEFILE_writes_the_text 1 "foo.txt" "hello" legacy0)
    as (w' & E & Hfile & _);
    [reflexivity | reflexivity | discriminate | reflexivity | reflexivity |].
  exists w'. split; [exact E | exact Hfile].
Defined.

Lemma SAVEFILE_overwrites_witness :
  exists w1 w2,
    WebWindowCallback 1 "SAVEFILE:foo.txt:hello" legacy0 = (Ret tt, w1) /\
    WebWindowCallback 1 "SAVEFILE:foo.txt:bye" w1 = (Ret tt, w2) /\
    files (host w2) !! "/home/foo.txt" = Some "bye".
Proof.
  destruct (SAVEFILE_overwrites 1 "foo.txt" "hello" "bye" legacy0)
    as (w1 & w2 & E1 & E2 & Hfile & _);
    [reflexivity | reflexivity | discriminate | reflexivity | discriminate | reflexivity
    | reflexivity | reflexivity |].
  exists w1, w2. split; [exact E1|]. split; [exact E2 | exact Hfile].
Defined.

(** The file /home/locked cannot be opened. *)
Lemma SAVEFILE_unwritable_witness :
  @WebWindowCallback Reader.framework 1 "SAVEFILE:locked:x" Reader.legacy
  = (Ret tt, Reader.legacy).
Proof.
  apply (@SAVEFILE_unwritable_is_silent Reader.framework 1 "locked" "x" Reader.legacy);
    [reflexivity | discriminate | reflexivity | vm_compute; reflexivity].
Defined.

Lemma BRREQ_witness : fst (WebWindowCallback 1 "BRREQ:" legacy0) = Ret tt.
Proof.
  destruct (BRREQ_is_answered 1 EmptyString {| path := "/"; first := 0; number := 100 |}
              legacy0) as (w' & E & _); [left; split; reflexivity|].
  exact (f_equal fst E).
Defined.

Lemma NEWCANVAS_legacy_witness : fst (WebWindowCallback 1 "NEWCANVAS" legacy0) = Ret tt.
Proof.
  destruct (NEWCANVAS_legacy 1 legacy0) as (canv & w' & E & _); [reflexivity|].
  exact (f_equal fst E).
Defined.

Lemma NEWCANVAS_nextgen_witness : fst (WebWindowCallback 1 "NEWCANVAS" nextgen0) = Ret tt.
Proof.
  destruct (NEWCANVAS_nextgen 1 nextgen0) as (canv & w' & E & _); [reflexivity|].
  exact (f_equal fst E).
Defined.

Lemma create_then_close_witness :
  exists w1 w2,
    WebWindowCallback 1 "NEWCANVAS" legacy0 = (Ret tt, w1) /\
    WebWindowCallback 1 "CLOSE_CANVAS:webcanv2" w1 = (Ret tt, w2) /\
    fCanvases (this w2) = fCanvases (this legacy0).
Proof.
  destruct (create_then_close_restores 1 legacy0) as (w1 & w2 & E1 & E2 & Hc & _).
  - reflexivity.
  - vm_compute. constructor; [discriminate | constructor].
  - exists w1, w2. split; [exact E1|]. split; [exact E2 | exact Hc].
Defined.

(** Two canvases named webcanv2: the older one goes. *)
Lemma erases_the_first_namesake_witness :
  exists w',
    WebWindowCallback 1 "CLOSE_CANVAS:webcanv2" collided = (Ret tt, w') /\
    fCanvases (this w') =
      [{| fName := "webcanv2"; fTitle := "webcanv2"; fPrimitives := []; fCanvasImp := 3 |}].
Proof.
  apply (CLOSE_CANVAS_erases_the_first_namesake 1 "webcanv2" collided []
           [{| fName := "webcanv2"; fTitle := "webcanv2"; fPrimitives := []; fCanvasImp := 3 |}]
           {| fName := "webcanv2"; fTitle := "webcanv2"; fPrimitives := []; fCanvasImp := 2 |});
    [vm_compute; reflexivity | reflexivity | constructor].
Defined.

Lemma CLOSE_CANVAS_unknown_witness :
  WebWindowCallback 1 "CLOSE_CANVAS:nosuch" legacy0 = (Ret tt, legacy0).
Proof.
  apply (CLOSE_CANVAS_unknown_is_ignored 1 "nosuch" legacy0).
  - vm_compute. constructor; [discriminate | constructor].
  - vm_compute. discriminate.
Defined.

Lemma closed_name_witness :
  "webcanv1" <> EmptyString /\
  fActiveCanvas (this (snd (WebWindowCallback 1 "CLOSE_CANVAS:webcanv1" legacy0)))
    <> "webcanv1".
Proof.
  split; [discriminate|].
  apply (closed_name_is_not_active 1 "webcanv1" legacy0). discriminate.
Defined.

Lemma webcanv_name_witness :
  webcanv_name (fCanvases (this legacy0)) = webcanv_name (fCanvases (this dangling)) <->
  length (fCanvases (this legacy0)) = length (fCanvases (this dangling)).
Proof.
  apply (webcanv_name_tells_the_length (fCanvases (this legacy0)) (fCanvases (this dangling)));
    vm_compute; reflexivity.
Defined.

Lemma nextgen0_reachable : reachable nextgen0.
Proof. apply (reach_new true host0). vm_compute. reflexivity. Qed.

Lemma three_rcanvases_reachable :
  reachable (snd (receive 1 ["NEWCANVAS"; "NEWCANVAS"] nextgen0)).
Proof.
  apply (receive_reachable 1 ["NEWCANVAS"; "NEWCANVAS"] nextgen0);
    [exact nextgen0_reachable | vm_compute; reflexivity].
Qed.

(** Three next-generation canvases: rcanv1, rcanv2, rcanv3. *)
Lemma reachable_rcanvas_titles_witness :
  map rTitle (fRCanvases (this (snd (receive 1 ["NEWCANVAS"; "NEWCANVAS"] nextgen0))))
  = ["rcanv1"; "rcanv2"; "rcanv3"].
Proof.
  destruct (reachable_rcanvas_titles _ three_rcanvases_reachable) as [E _];
    [vm_compute; reflexivity|].
  rewrite E. vm_compute. reflexivity.
Defined.

Lemma reachable_replies_witness :
  Forall (fun m => expected_reply (snd m)) (fSent (fWebWindow (this collided))).
Proof. exact (reachable_replies_are_expected collided collided_reachable). Defined.

End MoreSessions.
